(** * TodoApp (simple-app/script.js): a shallow embedding and its properties

    The page script keeps a list of task objects, mirrors it into
    [localStorage] under the key ['todoTasks'] as JSON text, and renders a
    filtered view.  This file models

    - JavaScript strings as sequences of UTF-16 code units,
    - the two runtime services the script relies on, [JSON.stringify] and
      [JSON.parse], following ECMA-262 / ECMA-404,
    - the [TodoApp] class, method by method, with explicit state passing,

    and then proves the properties of the store. *)

From Stdlib Require Import Ascii String.
From Stdlib Require Import List NArith ZArith Lia Bool.
From Stdlib Require Decimal DecimalN.
Import ListNotations.

Local Open Scope N_scope.

(* ================================================================= *)
(** ** JavaScript strings *)

Module Str.

(** A JavaScript string is a finite sequence of 16-bit code units. *)
Definition jsstring := list N.

(** ASCII literals of the source, as code units. *)
Definition lit (s : string) : jsstring :=
  map N_of_ascii (list_ascii_of_string s).

(** [a === b] on two strings. *)
Fixpoint eqb (a b : jsstring) : bool :=
  match a, b with
  | [], [] => true
  | x :: a', y :: b' => (x =? y) && eqb a' b'
  | _, _ => false
  end.

(** WhiteSpace and LineTerminator code points of ECMA-262 (all of them lie in
    the basic plane, so they are single code units). *)
Definition is_space (c : N) : bool :=
  (c =? 9) || (c =? 10) || (c =? 11) || (c =? 12) || (c =? 13) || (c =? 32)
  || (c =? 160) || (c =? 5760) || ((8192 <=? c) && (c <=? 8202))
  || (c =? 8232) || (c =? 8233) || (c =? 8239) || (c =? 8287)
  || (c =? 12288) || (c =? 65279).

Fixpoint trimStart (s : jsstring) : jsstring :=
  match s with
  | [] => []
  | c :: r => if is_space c then trimStart r else s
  end.

Definition trimEnd (s : jsstring) : jsstring := rev (trimStart (rev s)).

(** [String.prototype.trim]. *)
Definition trim (s : jsstring) : jsstring := trimEnd (trimStart s).

(** Decimal digits, most significant first. *)
Fixpoint of_uint (d : Decimal.uint) : jsstring :=
  match d with
  | Decimal.Nil => []
  | Decimal.D0 d => 48 :: of_uint d
  | Decimal.D1 d => 49 :: of_uint d
  | Decimal.D2 d => 50 :: of_uint d
  | Decimal.D3 d => 51 :: of_uint d
  | Decimal.D4 d => 52 :: of_uint d
  | Decimal.D5 d => 53 :: of_uint d
  | Decimal.D6 d => 54 :: of_uint d
  | Decimal.D7 d => 55 :: of_uint d
  | Decimal.D8 d => 56 :: of_uint d
  | Decimal.D9 d => 57 :: of_uint d
  end.

(** [Number.prototype.toString] on an integer below 10^21 (a length, a time
    value): plain decimal notation, with a minus sign when negative. *)
Definition of_N (n : N) : jsstring := of_uint (N.to_uint n).

Definition of_Z (z : Z) : jsstring :=
  match z with
  | Zneg p => 45 :: of_N (Npos p)
  | _ => of_N (Z.to_N z)
  end.

End Str.

Abbreviation jsstring := Str.jsstring.

(* ================================================================= *)
(** ** JSON text: [JSON.stringify] and [JSON.parse] *)

Module Json.

(** The values [JSON.parse] can build.  A number keeps the exact decimal it
    was written as: sign, digits and power of ten.  An object lists its own
    properties in creation order. *)
#[warnings="-register-all"]
Inductive value : Type :=
| Null
| Bool (b : bool)
| Number (negative : bool) (digits : N) (exponent : Z)
| String (s : jsstring)
| Array (elements : list value)
| Object (members : list (jsstring * value)).

(** *** Serialisation *)

Definition hex_digit (d : N) : N := if d <? 10 then 48 + d else 87 + d.

(** [\uXXXX], four lower-case hexadecimal digits. *)
Definition unicode_escape (c : N) : jsstring :=
  [92; 117; hex_digit (c / 4096); hex_digit ((c / 256) mod 16);
   hex_digit ((c / 16) mod 16); hex_digit (c mod 16)].

Definition is_high_surrogate (c : N) : bool := (55296 <=? c) && (c <=? 56319).
Definition is_low_surrogate (c : N) : bool := (56320 <=? c) && (c <=? 57343).

(** One code unit that is not the first half of a surrogate pair. *)
Definition quote_unit (c : N) : jsstring :=
  if c =? 8 then [92; 98]
  else if c =? 9 then [92; 116]
  else if c =? 10 then [92; 110]
  else if c =? 12 then [92; 102]
  else if c =? 13 then [92; 114]
  else if c =? 34 then [92; 34]
  else if c =? 92 then [92; 92]
  else if (c <? 32) || is_high_surrogate c || is_low_surrogate c
       then unicode_escape c
  else [c].

(** The body of QuoteJSONString: the string is read code point by code
    point; a well-formed surrogate pair is copied, a lone surrogate is
    escaped. *)
Fixpoint quote_units (s : jsstring) : jsstring :=
  match s with
  | [] => []
  | c :: r =>
      if is_high_surrogate c then
        match r with
        | d :: r' =>
            if is_low_surrogate d then c :: d :: quote_units r'
            else unicode_escape c ++ quote_units r
        | [] => unicode_escape c
        end
      else quote_unit c ++ quote_units r
  end.

Definition quote (s : jsstring) : jsstring := 34 :: quote_units s ++ [34].

Definition stringify_bool (b : bool) : jsstring :=
  if b then Str.lit "true" else Str.lit "false".

(** *** Parsing *)

(** Code units the grammar names: 34 double quote, 44 comma, 45 minus,
    46 point, 47 slash, 58 colon, 91 and 93 square brackets, 92 backslash,
    123 and 125 braces; letters 69 E, 98 b, 101 e, 102 f, 110 n, 114 r,
    116 t, 117 u; digits 48 to 57; white space 9, 10, 13, 32. *)

Fixpoint skip_ws (s : jsstring) : jsstring :=
  match s with
  | [] => []
  | c :: r =>
      if (c =? 32) || (c =? 9) || (c =? 10) || (c =? 13) then skip_ws r else s
  end.

Definition hex_value (c : N) : option N :=
  if (48 <=? c) && (c <=? 57) then Some (c - 48)
  else if (97 <=? c) && (c <=? 102) then Some (c - 87)
  else if (65 <=? c) && (c <=? 70) then Some (c - 55)
  else None.

Definition hex4 (a b c d : N) : option N :=
  match hex_value a, hex_value b, hex_value c, hex_value d with
  | Some x, Some y, Some z, Some w => Some (((x * 16 + y) * 16 + z) * 16 + w)
  | _, _, _, _ => None
  end.

(** The character after a backslash, [u] apart. *)
Definition simple_escape (e : N) : option N :=
  if e =? 34 then Some 34
  else if e =? 92 then Some 92
  else if e =? 47 then Some 47
  else if e =? 98 then Some 8
  else if e =? 102 then Some 12
  else if e =? 110 then Some 10
  else if e =? 114 then Some 13
  else if e =? 116 then Some 9
  else None.

(** The characters of a string literal, after its opening quote, up to and
    including the closing quote. *)
Fixpoint parse_chars (s : jsstring) : option (jsstring * jsstring) :=
  match s with
  | [] => None
  | c :: r =>
      if c =? 34 then Some ([], r)
      else if c =? 92 then
        match r with
        | [] => None
        | e :: r1 =>
            if e =? 117 then
              match r1 with
              | h1 :: h2 :: h3 :: h4 :: r2 =>
                  match hex4 h1 h2 h3 h4 with
                  | Some u =>
                      match parse_chars r2 with
                      | Some (str, rest) => Some (u :: str, rest)
                      | None => None
                      end
                  | None => None
                  end
              | _ => None
              end
            else
              match simple_escape e with
              | Some u =>
                  match parse_chars r1 with
                  | Some (str, rest) => Some (u :: str, rest)
                  | None => None
                  end
              | None => None
              end
        end
      else if c <? 32 then None
      else
        match parse_chars r with
        | Some (str, rest) => Some (c :: str, rest)
        | None => None
        end
  end.

Definition is_digit (c : N) : bool := (48 <=? c) && (c <=? 57).

(** The longest run of decimal digits at the head of the input: its value,
    its length and what follows. *)
Fixpoint take_digits (acc : N) (len : nat) (s : jsstring) : N * nat * jsstring :=
  match s with
  | c :: r =>
      if is_digit c then take_digits (acc * 10 + (c - 48)) (S len) r
      else (acc, len, s)
  | [] => (acc, len, s)
  end.

(** [int]: a single [0], or a digit run that does not start with [0]. *)
Definition parse_int (s : jsstring) : option (N * jsstring) :=
  match s with
  | c :: r =>
      if c =? 48 then Some (0, r)
      else if is_digit c then
        let '(n, _, rest) := take_digits 0 0%nat s in Some (n, rest)
      else None
  | [] => None
  end.

(** [frac]: nothing, or a point and at least one digit.  Returns the integer
    part extended by the fraction digits and the number of fraction digits. *)
Definition parse_frac (int : N) (s : jsstring) : option (N * nat * jsstring) :=
  match s with
  | c :: r =>
      if c =? 46 then
        match take_digits int 0%nat r with
        | (_, O, _) => None
        | (n, len, rest) => Some (n, len, rest)
        end
      else Some (int, 0%nat, s)
  | [] => Some (int, 0%nat, s)
  end.

(** [exp]: nothing, or [e]/[E], an optional sign and at least one digit. *)
Definition parse_exp (s : jsstring) : option (Z * jsstring) :=
  match s with
  | c :: r =>
      if (c =? 101) || (c =? 69) then
        let '(sign, r1) :=
          match r with
          | x :: r' =>
              if x =? 43 then (1%Z, r')
              else if x =? 45 then ((-1)%Z, r') else (1%Z, r)
          | [] => (1%Z, r)
          end in
        match take_digits 0 0%nat r1 with
        | (_, O, _) => None
        | (n, _, rest) => Some ((sign * Z.of_N n)%Z, rest)
        end
      else Some (0%Z, s)
  | [] => Some (0%Z, s)
  end.

Definition parse_number (s : jsstring) : option (value * jsstring) :=
  let '(neg, s1) :=
    match s with
    | c :: r => if c =? 45 then (true, r) else (false, s)
    | [] => (false, s)
    end in
  match parse_int s1 with
  | Some (int, s2) =>
      match parse_frac int s2 with
      | Some (digits, frac_len, s3) =>
          match parse_exp s3 with
          | Some (e, s4) => Some (Number neg digits (e - Z.of_nat frac_len), s4)
          | None => None
          end
      | None => None
      end
  | None => None
  end.

(** A keyword: the input must start with exactly these code units. *)
Fixpoint expect (word s : jsstring) : option jsstring :=
  match word, s with
  | [], _ => Some s
  | w :: word', c :: r => if c =? w then expect word' r else None
  | _ :: _, [] => None
  end.

Inductive result (A : Type) : Type :=
| Parsed (a : A) (rest : jsstring)
| SyntaxError
| OutOfFuel.
Arguments Parsed {A} a rest.
Arguments SyntaxError {A}.
Arguments OutOfFuel {A}.

(** CreateDataProperty on an ordinary object: a new key is appended, an
    existing key keeps its place and takes the new value.  (Keys that are
    array indices, which the engine enumerates first, do not occur in task
    objects; their reordering is not modelled.) *)
Fixpoint define (k : jsstring) (v : value) (o : list (jsstring * value))
  : list (jsstring * value) :=
  match o with
  | [] => [(k, v)]
  | (k', v') :: o' =>
      if Str.eqb k' k then (k', v) :: o' else (k', v') :: define k v o'
  end.

Definition build_object (ms : list (jsstring * value)) : value :=
  Object (fold_left (fun o kv => define (fst kv) (snd kv) o) ms []).

(** Recursive descent over the JSON grammar.  [fuel] bounds the number of
    nested calls; [parse] below supplies enough of it for any input. *)
Fixpoint parse_value (fuel : nat) (s : jsstring) : result value :=
  match fuel with
  | O => OutOfFuel
  | S fuel' =>
      match skip_ws s with
      | [] => SyntaxError
      | c :: r =>
          if c =? 34 then
            match parse_chars r with
            | Some (str, rest) => Parsed (String str) rest
            | None => SyntaxError
            end
          else if c =? 91 then
            match skip_ws r with
            | c' :: r' =>
                if c' =? 93 then Parsed (Array []) r'
                else
                  match parse_elements fuel' r with
                  | Parsed vs rest => Parsed (Array vs) rest
                  | SyntaxError => SyntaxError
                  | OutOfFuel => OutOfFuel
                  end
            | [] => SyntaxError
            end
          else if c =? 123 then
            match skip_ws r with
            | c' :: r' =>
                if c' =? 125 then Parsed (Object []) r'
                else
                  match parse_members fuel' r with
                  | Parsed ms rest => Parsed (build_object ms) rest
                  | SyntaxError => SyntaxError
                  | OutOfFuel => OutOfFuel
                  end
            | [] => SyntaxError
            end
          else if c =? 116 then
            match expect (Str.lit "rue") r with
            | Some rest => Parsed (Bool true) rest
            | None => SyntaxError
            end
          else if c =? 102 then
            match expect (Str.lit "alse") r with
            | Some rest => Parsed (Bool false) rest
            | None => SyntaxError
            end
          else if c =? 110 then
            match expect (Str.lit "ull") r with
            | Some rest => Parsed Null rest
            | None => SyntaxError
            end
          else
            match parse_number (c :: r) with
            | Some (v, rest) => Parsed v rest
            | None => SyntaxError
            end
      end
  end

with parse_elements (fuel : nat) (s : jsstring) : result (list value) :=
  match fuel with
  | O => OutOfFuel
  | S fuel' =>
      match parse_value fuel' s with
      | Parsed v r =>
          match skip_ws r with
          | c :: r' =>
              if c =? 44 then
                match parse_elements fuel' r' with
                | Parsed vs rest => Parsed (v :: vs) rest
                | SyntaxError => SyntaxError
                | OutOfFuel => OutOfFuel
                end
              else if c =? 93 then Parsed [v] r'
              else SyntaxError
          | [] => SyntaxError
          end
      | SyntaxError => SyntaxError
      | OutOfFuel => OutOfFuel
      end
  end

with parse_members (fuel : nat) (s : jsstring)
  : result (list (jsstring * value)) :=
  match fuel with
  | O => OutOfFuel
  | S fuel' =>
      match skip_ws s with
      | q :: r0 =>
          if q =? 34 then
            match parse_chars r0 with
            | Some (key, r1) =>
                match skip_ws r1 with
                | colon :: r2 =>
                    if colon =? 58 then
                      match parse_value fuel' r2 with
                      | Parsed v r3 =>
                          match skip_ws r3 with
                          | c :: r4 =>
                              if c =? 44 then
                                match parse_members fuel' r4 with
                                | Parsed ms rest => Parsed ((key, v) :: ms) rest
                                | SyntaxError => SyntaxError
                                | OutOfFuel => OutOfFuel
                                end
                              else if c =? 125 then Parsed [(key, v)] r4
                              else SyntaxError
                          | [] => SyntaxError
                          end
                      | SyntaxError => SyntaxError
                      | OutOfFuel => OutOfFuel
                      end
                    else SyntaxError
                | [] => SyntaxError
                end
            | None => SyntaxError
            end
          else SyntaxError
      | [] => SyntaxError
      end
  end.

(** [JSON.parse text]: one value, white space around it, nothing else.
    [None] is the thrown SyntaxError. *)
Definition parse (text : jsstring) : option value :=
  match parse_value (2 * length text + 2) text with
  | Parsed v rest =>
      match skip_ws rest with
      | [] => Some v
      | _ :: _ => None
      end
  | _ => None
  end.

(** ToBoolean of a parsed value.  A number is falsy when it denotes zero as
    an IEEE double: its digits are zero, or it is at most 2^-1075, half the
    least positive double, which rounds to zero. *)
Definition truthy (v : value) : bool :=
  match v with
  | Null => false
  | Bool b => b
  | Number _ d e =>
      if d =? 0 then false
      else if (0 <=? e)%Z then true
      else 10 ^ Z.to_N (- e) <? d * 2 ^ 1075
  | String s => match s with [] => false | _ :: _ => true end
  | Array _ => true
  | Object _ => true
  end.

End Json.

(* ================================================================= *)
(** ** The task store *)

(** A task object, as the literal in [addTask] creates it. *)
Record Task : Type := mkTask {
  id : jsstring;
  text : jsstring;
  completed : bool;
  createdAt : jsstring
}.

(** What [renderTasks] interpolates into the markup of one [<li>]: the id
    (written, as it is, into [data-task-id] and into the two inline
    handlers), the [checked]/[completed] class switch, the escaped text and
    the time label.  The fixed markup around these is not modelled, nor is
    how the browser reads the markup back. *)
Record Item : Type := mkItem {
  item_id : jsstring;
  item_checked : bool;
  item_text : jsstring;
  item_time : jsstring
}.

(** A filter button: its [data-filter] attribute and whether its class list
    holds [active]. *)
Record FilterButton : Type := mkButton {
  dataset_filter : jsstring;
  active : bool
}.

(** The elements [initializeElements] looks up, each reduced to the
    properties the script reads or writes. *)
Record Page : Type := mkPage {
  taskInput_value : jsstring;
  taskInput_focused : bool;
  taskList_display : jsstring;
  taskList_innerHTML : list Item;
  emptyState_hidden : bool;
  totalTasks_textContent : jsstring;
  completedTasks_textContent : jsstring;
  filterButtons : list FilterButton
}.

(** The [TodoApp] instance together with the one [localStorage] entry it
    uses ([None]: the key ['todoTasks'] is absent). *)
Record TodoApp : Type := mkApp {
  tasks : list Task;
  currentFilter : jsstring;
  page : Page;
  localStorage : option jsstring
}.

Definition set_tasks (ts : list Task) (a : TodoApp) : TodoApp :=
  mkApp ts (currentFilter a) (page a) (localStorage a).
Definition set_filter (f : jsstring) (a : TodoApp) : TodoApp :=
  mkApp (tasks a) f (page a) (localStorage a).
Definition set_page (p : Page) (a : TodoApp) : TodoApp :=
  mkApp (tasks a) (currentFilter a) p (localStorage a).
Definition set_storage (s : option jsstring) (a : TodoApp) : TodoApp :=
  mkApp (tasks a) (currentFilter a) (page a) s.

(** *** Persistence *)

(** [JSON.stringify] of a task: the four properties in creation order, no
    white space. *)
Definition stringify_task (t : Task) : jsstring :=
  Str.lit "{" ++ Json.quote (Str.lit "id") ++ Str.lit ":" ++ Json.quote (id t)
  ++ Str.lit "," ++ Json.quote (Str.lit "text") ++ Str.lit ":"
  ++ Json.quote (text t)
  ++ Str.lit "," ++ Json.quote (Str.lit "completed") ++ Str.lit ":"
  ++ Json.stringify_bool (completed t)
  ++ Str.lit "," ++ Json.quote (Str.lit "createdAt") ++ Str.lit ":"
  ++ Json.quote (createdAt t) ++ Str.lit "}".

Fixpoint stringify_elements (ts : list Task) : jsstring :=
  match ts with
  | [] => []
  | [t] => stringify_task t
  | t :: ts' => stringify_task t ++ Str.lit "," ++ stringify_elements ts'
  end.

(** [JSON.stringify(this.tasks)]. *)
Definition stringify_tasks (ts : list Task) : jsstring :=
  Str.lit "[" ++ stringify_elements ts ++ Str.lit "]".

(** [saveToLocalStorage] (lines 136-138).  [setItem] is taken to succeed. *)
Definition saveToLocalStorage (a : TodoApp) : TodoApp :=
  set_storage (Some (stringify_tasks (tasks a))) a.

(** A parsed object seen as a task: exactly the four properties, in creation
    order, with the types [addTask] gives them. *)
Definition as_task (v : Json.value) : option Task :=
  match v with
  | Json.Object [(k1, Json.String i); (k2, Json.String x);
                 (k3, Json.Bool c); (k4, Json.String d)] =>
      if Str.eqb k1 (Str.lit "id") && Str.eqb k2 (Str.lit "text")
         && Str.eqb k3 (Str.lit "completed")
         && Str.eqb k4 (Str.lit "createdAt")
      then Some (mkTask i x c d) else None
  | _ => None
  end.

Fixpoint as_tasks (vs : list Json.value) : option (list Task) :=
  match vs with
  | [] => Some []
  | v :: vs' =>
      match as_task v, as_tasks vs' with
      | Some t, Some ts => Some (t :: ts)
      | _, _ => None
      end
  end.

(** *** Rendering *)

(** [escapeHtml] (lines 140-144): the text is assigned to [textContent] and
    read back as [innerHTML], which replaces the four characters the HTML
    fragment serialiser escapes in text. *)
Fixpoint escapeHtml (s : jsstring) : jsstring :=
  match s with
  | [] => []
  | c :: r =>
      (if c =? 38 then Str.lit "&amp;"
       else if c =? 60 then Str.lit "&lt;"
       else if c =? 62 then Str.lit "&gt;"
       else if c =? 160 then Str.lit "&nbsp;"
       else [c]) ++ escapeHtml r
  end.

(** [getFilteredTasks] (lines 83-92). *)
Definition getFilteredTasks (a : TodoApp) : list Task :=
  if Str.eqb (currentFilter a) (Str.lit "active") then
    filter (fun task => negb (completed task)) (tasks a)
  else if Str.eqb (currentFilter a) (Str.lit "completed") then
    filter (fun task => completed task) (tasks a)
  else tasks a.

(** The two constants of [updateStats] (lines 95-96). *)
Definition stats_total (a : TodoApp) : nat := length (tasks a).
Definition stats_completed (a : TodoApp) : nat :=
  length (filter (fun task => completed task) (tasks a)).

(** [updateStats] (lines 94-100). *)
Definition updateStats (a : TodoApp) : TodoApp :=
  let total := stats_total a in
  let completed := stats_completed a in
  let p := page a in
  set_page
    (mkPage (taskInput_value p) (taskInput_focused p) (taskList_display p)
       (taskList_innerHTML p) (emptyState_hidden p)
       (Str.of_N (N.of_nat total) ++ Str.lit " "
        ++ (if Nat.eqb total 1 then Str.lit "task" else Str.lit "tasks"))
       (Str.of_N (N.of_nat completed) ++ Str.lit " completed")
       (filterButtons p))
    a.

(** [updateFilterButtons] (lines 102-106). *)
Definition updateFilterButtons (a : TodoApp) : TodoApp :=
  let p := page a in
  set_page
    (mkPage (taskInput_value p) (taskInput_focused p) (taskList_display p)
       (taskList_innerHTML p) (emptyState_hidden p)
       (totalTasks_textContent p) (completedTasks_textContent p)
       (map (fun button =>
               mkButton (dataset_filter button)
                 (Str.eqb (dataset_filter button) (currentFilter a)))
            (filterButtons p)))
    a.

(** [renderTasks] (lines 108-129). *)
Definition renderTasks (a : TodoApp) : TodoApp :=
  let filteredTasks := getFilteredTasks a in
  let empty := Nat.eqb (length filteredTasks) 0 in
  let p := page a in
  set_page
    (mkPage (taskInput_value p) (taskInput_focused p)
       (if empty then Str.lit "none" else Str.lit "block")
       (map (fun task =>
               mkItem (id task) (completed task) (escapeHtml (text task))
                 (createdAt task))
            filteredTasks)
       (negb empty)
       (totalTasks_textContent p) (completedTasks_textContent p)
       (filterButtons p))
    a.

(** [render] (lines 131-134). *)
Definition render (a : TodoApp) : TodoApp := renderTasks (updateStats a).

(** *** Operations *)

(** The user edits the input field. *)
Definition type_text (v : jsstring) (a : TodoApp) : TodoApp :=
  let p := page a in
  set_page
    (mkPage v (taskInput_focused p) (taskList_display p)
       (taskList_innerHTML p) (emptyState_hidden p)
       (totalTasks_textContent p) (completedTasks_textContent p)
       (filterButtons p))
    a.

Definition taskInput_focus (a : TodoApp) : TodoApp :=
  let p := page a in
  set_page
    (mkPage (taskInput_value p) true (taskList_display p)
       (taskList_innerHTML p) (emptyState_hidden p)
       (totalTasks_textContent p) (completedTasks_textContent p)
       (filterButtons p))
    a.

(** [addTask] (lines 41-66).  [now] is what [Date.now()] returns and [label]
    what [toLocaleTimeString] returns at the call; the text is read from the
    input field.  The button animation is not modelled. *)
Definition addTask (now : Z) (label : jsstring) (a : TodoApp) : TodoApp :=
  let taskText := Str.trim (taskInput_value (page a)) in
  match taskText with
  | [] => taskInput_focus a
  | _ :: _ =>
      let newTask := mkTask (Str.of_Z now) taskText false label in
      let a1 := set_tasks (newTask :: tasks a) a in
      let a2 := type_text [] a1 in
      render (saveToLocalStorage a2)
  end.

(** [task.completed = !task.completed] on the object [find] returned, which
    is the first element that satisfies the callback. *)
Fixpoint update_first (p : Task -> bool) (f : Task -> Task) (l : list Task)
  : list Task :=
  match l with
  | [] => []
  | t :: r => if p t then f t :: r else t :: update_first p f r
  end.

Definition flip_completed (t : Task) : Task :=
  mkTask (id t) (text t) (negb (completed t)) (createdAt t).

(** [toggleTask] (lines 68-75). *)
Definition toggleTask (taskId : jsstring) (a : TodoApp) : TodoApp :=
  match find (fun t => Str.eqb (id t) taskId) (tasks a) with
  | Some _ =>
      let a1 :=
        set_tasks
          (update_first (fun t => Str.eqb (id t) taskId) flip_completed
             (tasks a)) a in
      render (saveToLocalStorage a1)
  | None => a
  end.

(** [deleteTask] (lines 77-81). *)
Definition deleteTask (taskId : jsstring) (a : TodoApp) : TodoApp :=
  let a1 :=
    set_tasks (filter (fun t => negb (Str.eqb (id t) taskId)) (tasks a)) a in
  render (saveToLocalStorage a1).

(** The click listener of a filter button (lines 33-37); [f] is the
    [data-filter] attribute of the button. *)
Definition setFilter (f : jsstring) (a : TodoApp) : TodoApp :=
  renderTasks (updateFilterButtons (set_filter f a)).

(** The Ctrl/Cmd+Shift+C shortcut (lines 161-167). *)
Definition clearCompleted (a : TodoApp) : TodoApp :=
  let a1 := set_tasks (filter (fun task => negb (completed task)) (tasks a)) a in
  render (saveToLocalStorage a1).

(** *** Start-up *)

Inductive Error : Type := SyntaxError | TypeError.

(** How [new TodoApp()] ends: an exception leaves the constructor, or it
    returns.  [Started a]: it returns the store [a], whose tasks are task
    objects laid out as [addTask] lays them out.  [StartedWith vs]: it
    returns a store whose [this.tasks] is the parsed array [vs], kept as it
    is; some element of [vs] is not such a task object (another value, or an
    object with other keys or another key order).  What the page shows for
    such a store is the text of arbitrary values, numbers as doubles
    included, which is not modelled: this outcome records the array only. *)
Inductive Startup : Type :=
| Started (a : TodoApp)
| Threw (e : Error)
| StartedWith (vs : list Json.value).

(** [localStorage.getItem('todoTasks')] handed to [JSON.parse]: an absent
    key gives [null], which [JSON.parse] reads as the text [null]. *)
Definition stored_text (stored : option jsstring) : jsstring :=
  match stored with
  | Some s => s
  | None => Str.lit "null"
  end.

(** An own property of a parsed object. *)
Fixpoint own_property (k : jsstring) (ms : list (jsstring * Json.value))
  : option Json.value :=
  match ms with
  | [] => None
  | (k', v) :: ms' => if Str.eqb k' k then Some v else own_property k ms'
  end.

(** ToString of a parsed value returns.  It throws a TypeError on an object
    with an own property named [toString]: that property, read from JSON, is
    not a function, and the inherited [valueOf] returns the object itself,
    so no primitive is found.  An array is joined, which converts its
    elements in turn. *)
Fixpoint printable (v : Json.value) : bool :=
  match v with
  | Json.Object ms =>
      match own_property (Str.lit "toString") ms with
      | Some _ => false
      | None => true
      end
  | Json.Array vs => forallb printable vs
  | _ => true
  end.

(** [e.k] for a parsed element [e] other than [null] and a key [k] among
    [id], [text], [completed] and [createdAt]: an own property of an object,
    and [undefined] ([None]) in every other case, since strings, numbers,
    booleans, arrays and the built-in prototypes have no property of these
    names. *)
Definition element_property (k : jsstring) (e : Json.value)
  : option Json.value :=
  match e with
  | Json.Object ms => own_property k ms
  | _ => None
  end.

Definition printable_property (k : jsstring) (e : Json.value) : bool :=
  match element_property k e with
  | Some v => printable v
  | None => true
  end.

(** [render] throws on the parsed array [vs].  [updateStats] reads
    [task.completed] of every element (line 96), which throws a TypeError on
    [null]; [renderTasks] then converts [task.id] and [task.createdAt] of
    every element to text in the template and [task.text] in [escapeHtml]
    (lines 120-126), which throws a TypeError when the conversion does.
    Nothing else in [render] can throw. *)
Definition render_throws (vs : list Json.value) : bool :=
  existsb (fun e => match e with Json.Null => true | _ => false end) vs
  || existsb (fun e => negb (printable_property (Str.lit "id") e
                             && printable_property (Str.lit "text") e
                             && printable_property (Str.lit "createdAt") e))
       vs.

(** The constructor (lines 2-8) on a page [p] and a store holding [stored].
    [JSON.parse(...) || []] keeps a truthy value and replaces a falsy one by
    the empty array; [render] then calls [this.tasks.filter], which a value
    that is not an array does not have, and on an array throws as
    [render_throws] says. *)
Definition constructor (p : Page) (stored : option jsstring) : Startup :=
  match Json.parse (stored_text stored) with
  | None => Threw SyntaxError
  | Some v =>
      let held := if Json.truthy v then v else Json.Array [] in
      match held with
      | Json.Array vs =>
          if render_throws vs then Threw TypeError
          else
            match as_tasks vs with
            | Some ts => Started (render (mkApp ts (Str.lit "all") p stored))
            | None => StartedWith vs
            end
      | _ => Threw TypeError
      end
  end.

(** *** Vocabulary of the statements *)

(** [l1] is [l2] with some elements left out, the others in their order. *)
Inductive Subseq {A : Type} : list A -> list A -> Prop :=
| Subseq_nil : Subseq [] []
| Subseq_skip x l1 l2 : Subseq l1 l2 -> Subseq l1 (x :: l2)
| Subseq_keep x l1 l2 : Subseq l1 l2 -> Subseq (x :: l1) (x :: l2).

(** The ids of the stored tasks, in list order. *)
Definition ids (a : TodoApp) : list jsstring := map id (tasks a).

(** Each stored task's id with its text, in list order. *)
Definition texts (a : TodoApp) : list (jsstring * jsstring) :=
  map (fun t => (id t, text t)) (tasks a).

(** The view a filter button brings up. *)
Definition view (f : jsstring) (a : TodoApp) : list Task :=
  getFilteredTasks (setFilter f a).

(** A page as the markup delivers it: three filter buttons, [all] active. *)
Definition blank_page : Page :=
  mkPage [] false [] [] false [] []
    [mkButton (Str.lit "all") true; mkButton (Str.lit "active") false;
     mkButton (Str.lit "completed") false].

(** The store a first visit starts with. *)
Definition fresh_app : TodoApp :=
  render (mkApp [] (Str.lit "all") blank_page None).

(** The value [JSON.parse] builds from the text of a task. *)
Definition task_value (t : Task) : Json.value :=
  Json.Object [(Str.lit "id", Json.String (id t));
               (Str.lit "text", Json.String (text t));
               (Str.lit "completed", Json.Bool (completed t));
               (Str.lit "createdAt", Json.String (createdAt t))].

(** [a]'s persisted text is read back by the constructor as [a]'s task
    list. *)
Definition Reloads (p : Page) (a : TodoApp) : Prop :=
  exists a', constructor p (localStorage a) = Started a'
             /\ tasks a' = tasks a.

(** The array [this.tasks] holds when the constructor has returned; a task
    of a typed store stands for the object [task_value] gives. *)
Definition started_array (s : Startup) : option (list Json.value) :=
  match s with
  | Started a => Some (map task_value (tasks a))
  | StartedWith vs => Some vs
  | Threw _ => None
  end.

(** Two stored tasks with distinct ids. *)
Definition two_tasks : TodoApp :=
  render (mkApp [mkTask (Str.lit "8") (Str.lit "b") true (Str.lit "10:31");
                 mkTask (Str.lit "7") (Str.lit "a") false (Str.lit "10:30")]
            (Str.lit "all") blank_page None).

(** Three stored tasks, the first and the last with the same id. *)
Definition shared_id : TodoApp :=
  render (mkApp [mkTask (Str.lit "7") (Str.lit "a") false (Str.lit "10:30");
                 mkTask (Str.lit "8") (Str.lit "b") false (Str.lit "10:30");
                 mkTask (Str.lit "7") (Str.lit "c") false (Str.lit "10:30")]
            (Str.lit "all") blank_page None).

(** *** Listeners and the load-time script *)

(** The keypress listener of the input field (lines 25-29). *)
Definition taskInput_keypress
    (key : jsstring) (now : Z) (label : jsstring) (a : TodoApp) : TodoApp :=
  if Str.eqb key (Str.lit "Enter") then addTask now label a else a.

(** The fields of a keyboard event the script reads. *)
Record KeyboardEvent : Type := mkKey {
  ctrlKey : bool;
  metaKey : bool;
  shiftKey : bool;
  key : jsstring
}.

(** The keydown listener of the document (lines 153-169), once
    [window.todoApp] holds the store: Ctrl/Cmd+/ focuses the input field,
    Ctrl/Cmd+Shift+C removes the completed tasks. *)
Definition document_keydown (e : KeyboardEvent) (a : TodoApp) : TodoApp :=
  let a1 :=
    if (ctrlKey e || metaKey e) && Str.eqb (key e) (Str.lit "/")
    then taskInput_focus a else a in
  if (ctrlKey e || metaKey e) && shiftKey e && Str.eqb (key e) (Str.lit "C")
  then clearCompleted a1 else a1.

(** What can happen to a running page: the user edits the input field, or
    one of the listeners fires (the add button, a key in the input field, a
    filter button, the checkbox or the delete button of a task, a key on
    the document). *)
Inductive Event : Type :=
| Edit (v : jsstring)
| AddClick (now : Z) (label : jsstring)
| KeyPress (k : jsstring) (now : Z) (label : jsstring)
| FilterClick (f : jsstring)
| CheckboxClick (taskId : jsstring)
| DeleteClick (taskId : jsstring)
| KeyDown (e : KeyboardEvent).

Definition handle (ev : Event) (a : TodoApp) : TodoApp :=
  match ev with
  | Edit v => type_text v a
  | AddClick now label => addTask now label a
  | KeyPress k now label => taskInput_keypress k now label a
  | FilterClick f => setFilter f a
  | CheckboxClick taskId => toggleTask taskId a
  | DeleteClick taskId => deleteTask taskId a
  | KeyDown e => document_keydown e a
  end.

(** Events are handled one at a time, each to completion. *)
Fixpoint run (evs : list Event) (a : TodoApp) : TodoApp :=
  match evs with
  | [] => a
  | ev :: evs' => run evs' (handle ev a)
  end.

(** Typing each text and clicking the add button, one entry after the
    other; an entry is the clock reading, the time label and the text. *)
Definition typed_adds (entries : list (Z * jsstring * jsstring)) : list Event :=
  flat_map (fun e => [Edit (snd e); AddClick (fst (fst e)) (snd (fst e))])
    entries.

(** The task [addTask] creates for an entry. *)
Definition entry_task (e : Z * jsstring * jsstring) : Task :=
  mkTask (Str.of_Z (fst (fst e))) (Str.trim (snd e)) false (snd (fst e)).

(** How an expression ends: with a value or with a thrown error. *)
Inductive Completion (A : Type) : Type :=
| Returned (x : A)
| Raised (e : Error).
Arguments Returned {A} x.
Arguments Raised {A} e.

(** [v === 0]: [v] is a number that denotes zero. *)
Definition is_zero (v : Json.value) : bool :=
  match v with
  | Json.Number _ _ _ => negb (Json.truthy v)
  | _ => false
  end.

(** [v.length === 0] for a parsed value [v]: reading a property of [null]
    throws; an array and a string have their length; a boolean and a number
    have no such property; an object has it when it is one of its own. *)
Definition length_is_zero (v : Json.value) : Completion bool :=
  match v with
  | Json.Null => Raised TypeError
  | Json.Array vs => Returned (Nat.eqb (length vs) 0)
  | Json.String s => Returned (Nat.eqb (length s) 0)
  | Json.Object ms =>
      Returned
        match own_property (Str.lit "length") ms with
        | Some n => is_zero n
        | None => false
        end
  | Json.Bool _ => Returned false
  | Json.Number _ _ _ => Returned false
  end.

(** The condition of the welcome message (line 172), evaluated when the
    script is loaded: [!getItem(...) || JSON.parse(getItem(...)).length === 0].
    An absent key and the empty text are falsy and settle it at once. *)
Definition welcome_condition (stored : option jsstring) : Completion bool :=
  match stored with
  | None => Returned true
  | Some [] => Returned true
  | Some (c :: s) =>
      match Json.parse (c :: s) with
      | None => Raised SyntaxError
      | Some v => length_is_zero v
      end
  end.

(** The placeholder the timer callback sets (line 176). *)
Definition welcome_placeholder : jsstring :=
  Str.lit "Try: 'Learn something new today!' " ++ [10024].

(** Lines 172-179: when the condition holds, the callback runs a second
    later and sets the placeholder if the input field is then empty;
    [input_value] is the content of the field at that time.  The result is
    the placeholder written, if any. *)
Definition welcome (stored : option jsstring) (input_value : jsstring)
  : Completion (option jsstring) :=
  match welcome_condition stored with
  | Returned true =>
      Returned match input_value with
               | [] => Some welcome_placeholder
               | _ :: _ => None
               end
  | Returned false => Returned None
  | Raised e => Raised e
  end.

(** *** More vocabulary *)

(** The page shows the store as it is: rendering again changes nothing. *)
Definition Rendered (a : TodoApp) : Prop := render a = a.

(** Every stored text is non-empty and has no white space at its ends. *)
Definition Trimmed (a : TodoApp) : Prop :=
  Forall (fun t => text t <> [] /\ Str.trim (text t) = text t) (tasks a).

(** The number of filter buttons marked active. *)
Definition active_buttons (a : TodoApp) : nat :=
  length (filter (fun b => active b) (filterButtons (page a))).

(* ================================================================= *)
(** ** The runtime model on sample inputs *)

(** [trim] removes white space of every kind at both ends only; integers
    print in decimal. *)
Example trim_and_decimal :
  Str.trim [32; 12288; 97; 32; 98; 10; 65279] = [97; 32; 98]
  /\ Str.of_Z (-12) = Str.lit "-12"
  /\ Str.of_Z 0 = Str.lit "0"
  /\ Str.of_Z 1700000000000 = Str.lit "1700000000000".
Proof. repeat split. Qed.

(** Quoting escapes the quote, the backslash, control characters and lone
    surrogates, and copies everything else, surrogate pairs included. *)
Example quote_sample :
  Json.quote [97; 34; 92; 10; 7; 127; 233; 55357; 56832; 56832]
  = [34; 97; 92; 34; 92; 92; 92; 110; 92; 117; 48; 48; 48; 55; 127; 233;
     55357; 56832; 92; 117; 100; 101; 48; 48; 34].
Proof. reflexivity. Qed.

Example parse_sample :
  Json.parse (Str.lit " [ { } , [1, -2.50e+3, true ,null], 0 ] ")
  = Some (Json.Array
            [Json.Object [];
             Json.Array [Json.Number false 1 0; Json.Number true 250 1;
                         Json.Bool true; Json.Null];
             Json.Number false 0 0])
  /\ Json.parse [34; 92; 117; 48; 48; 52; 49; 92; 47; 92; 117; 68; 56; 48;
                 48; 34]
     = Some (Json.String [65; 47; 55296]).
Proof. repeat split. Qed.

Example parse_rejects :
  map Json.parse
    [Str.lit "[1,]"; Str.lit "01"; Str.lit "1."; Str.lit "tru";
     Str.lit "[1 2]"; Str.lit "{a:1}"; Str.lit "-"; Str.lit "1e";
     [34; 9; 34]; Str.lit "[[]"; []]
  = [None; None; None; None; None; None; None; None; None; None; None].
Proof. reflexivity. Qed.

Example truthy_sample :
  map (fun s => option_map Json.truthy (Json.parse s))
    [Str.lit "0"; Str.lit "-0.000"; Str.lit "2e-324"; Str.lit "3e-324";
     Str.lit "false"; Str.lit "null"; [34; 34]; Str.lit "[]"; Str.lit "{}"]
  = [Some false; Some false; Some false; Some true; Some false; Some false;
     Some false; Some true; Some true].
Proof. reflexivity. Qed.

(* ================================================================= *)
(** ** Strings and subsequences *)

Lemma str_eqb_eq (a b : jsstring) : Str.eqb a b = true <-> a = b.
Proof.
  revert b; induction a as [|x a IH]; intros [|y b]; simpl;
    try (split; [discriminate | discriminate]); try tauto.
  rewrite andb_true_iff, N.eqb_eq, IH.
  split; [intros [-> ->]; reflexivity | intros [= -> ->]; auto].
Qed.

Lemma str_eqb_refl (a : jsstring) : Str.eqb a a = true.
Proof. apply str_eqb_eq; reflexivity. Qed.

Lemma str_eqb_neq (a b : jsstring) : Str.eqb a b = false <-> a <> b.
Proof.
  rewrite <- str_eqb_eq. destruct (Str.eqb a b); split; congruence.
Qed.

Lemma Subseq_refl {A : Type} (l : list A) : Subseq l l.
Proof. induction l; constructor; assumption. Qed.

Lemma Subseq_filter {A : Type} (p : A -> bool) (l : list A) :
  Subseq (filter p l) l.
Proof.
  induction l as [|x l IH]; simpl; [constructor|].
  destruct (p x); constructor; assumption.
Qed.

Lemma Subseq_map {A B : Type} (f : A -> B) (l1 l2 : list A) :
  Subseq l1 l2 -> Subseq (map f l1) (map f l2).
Proof. induction 1; simpl; constructor; assumption. Qed.

Lemma Subseq_In {A : Type} (l1 l2 : list A) (x : A) :
  Subseq l1 l2 -> In x l1 -> In x l2.
Proof.
  induction 1; simpl; intros Hin; auto.
  destruct Hin; auto.
Qed.

Lemma Subseq_NoDup {A : Type} (l1 l2 : list A) :
  Subseq l1 l2 -> NoDup l2 -> NoDup l1.
Proof.
  induction 1; intros Hnd; auto.
  - inversion Hnd; auto.
  - inversion Hnd; subst. constructor; auto.
    intros Hin. eauto using Subseq_In.
Qed.

(* ================================================================= *)
(** ** What the operations do to the task list *)

Lemma tasks_render (a : TodoApp) : tasks (render a) = tasks a.
Proof. reflexivity. Qed.

Lemma tasks_setFilter (f : jsstring) (a : TodoApp) :
  tasks (setFilter f a) = tasks a.
Proof. reflexivity. Qed.

Lemma tasks_deleteTask (i : jsstring) (a : TodoApp) :
  tasks (deleteTask i a) = filter (fun t => negb (Str.eqb (id t) i)) (tasks a).
Proof. reflexivity. Qed.

Lemma tasks_clearCompleted (a : TodoApp) :
  tasks (clearCompleted a) = filter (fun t => negb (completed t)) (tasks a).
Proof. reflexivity. Qed.

Lemma tasks_toggleTask (i : jsstring) (a : TodoApp) :
  tasks (toggleTask i a)
  = update_first (fun t => Str.eqb (id t) i) flip_completed (tasks a).
Proof.
  unfold toggleTask.
  destruct (find _ (tasks a)) eqn:Hf; [reflexivity|].
  induction (tasks a) as [|t l IH]; simpl in *; [reflexivity|].
  destruct (Str.eqb (id t) i); [discriminate|].
  f_equal; auto.
Qed.

Lemma update_first_map_id p l :
  map id (update_first p flip_completed l) = map id l.
Proof.
  induction l as [|t l IH]; simpl; [reflexivity|].
  destruct (p t); simpl; [reflexivity | f_equal; assumption].
Qed.

Lemma update_first_texts p l :
  map (fun t => (id t, text t)) (update_first p flip_completed l)
  = map (fun t => (id t, text t)) l.
Proof.
  induction l as [|t l IH]; simpl; [reflexivity|].
  destruct (p t); simpl; [reflexivity | f_equal; assumption].
Qed.

Lemma update_first_absent p f l :
  Forall (fun t => p t = false) l -> update_first p f l = l.
Proof.
  induction 1 as [|t l Ht _ IH]; simpl; [reflexivity|].
  rewrite Ht, IH; reflexivity.
Qed.

Lemma update_first_split p f pre t post :
  Forall (fun u => p u = false) pre -> p t = true ->
  update_first p f (pre ++ t :: post) = pre ++ f t :: post.
Proof.
  induction 1 as [|u pre Hu _ IH]; simpl; intros Ht.
  - rewrite Ht; reflexivity.
  - rewrite Hu, IH by assumption; reflexivity.
Qed.

Lemma filter_absent {A : Type} (p : A -> bool) (l : list A) :
  Forall (fun t => p t = true) l -> filter p l = l.
Proof.
  induction 1 as [|t l Ht _ IH]; simpl; [reflexivity|].
  rewrite Ht, IH; reflexivity.
Qed.

Lemma id_absent (i : jsstring) (l : list Task) :
  ~ In i (map id l) -> Forall (fun t => Str.eqb (id t) i = false) l.
Proof.
  induction l as [|t l IH]; simpl; intros Hn; constructor.
  - apply str_eqb_neq; tauto.
  - apply IH; tauto.
Qed.

Lemma addTask_blank now label a :
  Str.trim (taskInput_value (page a)) = [] ->
  addTask now label a = taskInput_focus a.
Proof. unfold addTask; intros ->; reflexivity. Qed.

Lemma addTask_tasks now label a :
  Str.trim (taskInput_value (page a)) <> [] ->
  tasks (addTask now label a)
  = mkTask (Str.of_Z now) (Str.trim (taskInput_value (page a))) false label
    :: tasks a.
Proof.
  unfold addTask; intros Hne.
  destruct (Str.trim (taskInput_value (page a))); [congruence | reflexivity].
Qed.

(* ================================================================= *)
(** ** Adding a task *)

(** C3.  When the trimmed input is not empty, [addTask] puts one new task,
    not completed, in front of the stored tasks, which stay as they were and
    in their order; the total count grows by exactly one. *)
Theorem addTask_prepends (now : Z) (label txt : jsstring) (a : TodoApp) :
  Str.trim txt <> [] ->
  let a' := addTask now label (type_text txt a) in
  (exists t, tasks a' = t :: tasks a /\ completed t = false)
  /\ stats_total a' = S (stats_total a)
  /\ view (Str.lit "all") a' = tasks a'.
Proof.
  intros Hne a'.
  assert (Ht : tasks a'
               = mkTask (Str.of_Z now) (Str.trim txt) false label :: tasks a)
    by (apply (addTask_tasks now label (type_text txt a)); exact Hne).
  repeat split.
  - eexists; split; [exact Ht | reflexivity].
  - unfold stats_total; rewrite Ht; reflexivity.
Qed.

Lemma addTask_prepends_witness :
  Str.trim (Str.lit "Buy milk") <> []
  /\ let a' := addTask 1700000000000 (Str.lit "10:30")
                 (type_text (Str.lit "Buy milk") fresh_app) in
     (exists t, tasks a' = t :: tasks fresh_app /\ completed t = false)
     /\ stats_total a' = S (stats_total fresh_app)
     /\ view (Str.lit "all") a' = tasks a'.
Proof.
  split; [vm_compute; discriminate|].
  apply (addTask_prepends 1700000000000 (Str.lit "10:30") (Str.lit "Buy milk")
           fresh_app).
  vm_compute; discriminate.
Defined.

(** C8.  When the trimmed input is empty, [addTask] only focuses the input
    field: the task list, the total count, the persisted text and the
    displayed counts are what they were. *)
Theorem addTask_blank_noop (now : Z) (label txt : jsstring) (a : TodoApp) :
  Str.trim txt = [] ->
  let a0 := type_text txt a in
  let a' := addTask now label a0 in
  a' = taskInput_focus a0
  /\ tasks a' = tasks a
  /\ stats_total a' = stats_total a
  /\ localStorage a' = localStorage a
  /\ totalTasks_textContent (page a') = totalTasks_textContent (page a)
  /\ taskInput_value (page a') = txt.
Proof.
  intros He a0 a'.
  assert (Ha : a' = taskInput_focus a0)
    by (apply addTask_blank; exact He).
  rewrite Ha; repeat split.
Qed.

Lemma addTask_blank_noop_witness :
  Str.trim (Str.lit "   ") = []
  /\ let a0 := type_text (Str.lit "   ") fresh_app in
     let a' := addTask 1700000000000 (Str.lit "10:30") a0 in
     a' = taskInput_focus a0
     /\ tasks a' = tasks fresh_app
     /\ stats_total a' = stats_total fresh_app
     /\ localStorage a' = localStorage fresh_app
     /\ totalTasks_textContent (page a')
        = totalTasks_textContent (page fresh_app)
     /\ taskInput_value (page a') = Str.lit "   ".
Proof.
  split; [reflexivity|].
  apply (addTask_blank_noop 1700000000000 (Str.lit "10:30") (Str.lit "   ")
           fresh_app).
  reflexivity.
Defined.

(* ================================================================= *)
(** ** Toggling and deleting by id *)

(** C9.  For an id that no stored task has, [toggleTask] returns the store
    untouched and [deleteTask] leaves the task list as it was.  Both are
    total functions: there is no error outcome. *)
Theorem unknown_id_noop (i : jsstring) (a : TodoApp) :
  ~ In i (ids a) ->
  toggleTask i a = a /\ tasks (deleteTask i a) = tasks a.
Proof.
  intros Hn; apply id_absent in Hn; split.
  - unfold toggleTask.
    destruct (find _ (tasks a)) as [t|] eqn:Hf; [|reflexivity].
    apply find_some in Hf; destruct Hf as [Hin Heq].
    rewrite Forall_forall in Hn; rewrite (Hn _ Hin) in Heq; discriminate.
  - rewrite tasks_deleteTask; apply filter_absent.
    revert Hn; apply Forall_impl; intros t ->; reflexivity.
Qed.

Lemma unknown_id_noop_witness :
  ~ In (Str.lit "9") (ids two_tasks)
  /\ toggleTask (Str.lit "9") two_tasks = two_tasks
  /\ tasks (deleteTask (Str.lit "9") two_tasks) = tasks two_tasks.
Proof.
  assert (H : ~ In (Str.lit "9") (ids two_tasks))
    by (vm_compute; intros [H|[H|[]]]; discriminate).
  split; [exact H | exact (unknown_id_noop (Str.lit "9") two_tasks H)].
Defined.

(** C10.  When the first task with id [i] is [t], [toggleTask i] flips [t]
    alone: the tasks before and after it, later ones with the same id
    included, are untouched.  [deleteTask i] leaves no task with id [i] and
    keeps every other task, in order. *)
Theorem shared_id_toggle_delete
    (i : jsstring) (pre post : list Task) (t : Task) (a : TodoApp) :
  tasks a = pre ++ t :: post -> id t = i -> ~ In i (map id pre) ->
  tasks (toggleTask i a)
  = pre ++ mkTask (id t) (text t) (negb (completed t)) (createdAt t) :: post
  /\ ~ In i (ids (deleteTask i a))
  /\ Subseq (tasks (deleteTask i a)) (tasks a)
  /\ (forall u, In u (tasks a) -> id u <> i -> In u (tasks (deleteTask i a))).
Proof.
  intros Ht Hid Hpre; repeat split.
  - rewrite tasks_toggleTask, Ht.
    apply (update_first_split _ flip_completed).
    + apply id_absent; exact Hpre.
    + apply str_eqb_eq; exact Hid.
  - unfold ids; rewrite tasks_deleteTask, in_map_iff.
    intros (u & Hu & Hin). apply filter_In in Hin; destruct Hin as [_ Hne].
    apply negb_true_iff, str_eqb_neq in Hne; contradiction.
  - rewrite tasks_deleteTask; apply Subseq_filter.
  - intros u Hin Hne; rewrite tasks_deleteTask; apply filter_In; split; auto.
    apply negb_true_iff, str_eqb_neq; exact Hne.
Qed.

Lemma shared_id_toggle_delete_witness :
  tasks (toggleTask (Str.lit "7") shared_id)
  = [mkTask (Str.lit "7") (Str.lit "a") true (Str.lit "10:30");
     mkTask (Str.lit "8") (Str.lit "b") false (Str.lit "10:30");
     mkTask (Str.lit "7") (Str.lit "c") false (Str.lit "10:30")]
  /\ ~ In (Str.lit "7") (ids (deleteTask (Str.lit "7") shared_id))
  /\ Subseq (tasks (deleteTask (Str.lit "7") shared_id)) (tasks shared_id)
  /\ (forall u, In u (tasks shared_id) -> id u <> Str.lit "7" ->
                In u (tasks (deleteTask (Str.lit "7") shared_id))).
Proof.
  apply (shared_id_toggle_delete (Str.lit "7") []
           [mkTask (Str.lit "8") (Str.lit "b") false (Str.lit "10:30");
            mkTask (Str.lit "7") (Str.lit "c") false (Str.lit "10:30")]
           (mkTask (Str.lit "7") (Str.lit "a") false (Str.lit "10:30"))
           shared_id).
  - reflexivity.
  - reflexivity.
  - simpl; tauto.
Defined.

(* ================================================================= *)
(** ** Filtered views and counts *)

Lemma view_all (a : TodoApp) : view (Str.lit "all") a = tasks a.
Proof. reflexivity. Qed.

Lemma view_active (a : TodoApp) :
  view (Str.lit "active") a = filter (fun t => negb (completed t)) (tasks a).
Proof. reflexivity. Qed.

Lemma view_completed (a : TodoApp) :
  view (Str.lit "completed") a = filter (fun t => completed t) (tasks a).
Proof. reflexivity. Qed.

Lemma filter_partition_length {A : Type} (p : A -> bool) (l : list A) :
  (length (filter (fun x => negb (p x)) l) + length (filter p l))%nat
  = length l.
Proof.
  induction l as [|x l IH]; simpl; [reflexivity|].
  destruct (p x); simpl; lia.
Qed.

(** C5.  Under [active] every shown task has [completed = false], under
    [completed] every shown task has [completed = true], under [all] the
    whole list is shown; each view is a subsequence of the list; no task is
    in both the [active] and the [completed] view, and the two together hold
    exactly the tasks of the [all] view. *)
Theorem filter_views (a : TodoApp) :
  let all := view (Str.lit "all") a in
  let act := view (Str.lit "active") a in
  let comp := view (Str.lit "completed") a in
  all = tasks a
  /\ Forall (fun t => completed t = false) act
  /\ Forall (fun t => completed t = true) comp
  /\ Subseq all (tasks a) /\ Subseq act (tasks a) /\ Subseq comp (tasks a)
  /\ (forall t, ~ (In t act /\ In t comp))
  /\ (forall t, In t all <-> In t act \/ In t comp)
  /\ (length act + length comp)%nat = length all.
Proof.
  cbv zeta. rewrite view_all, view_active, view_completed.
  repeat split.
  - apply Forall_forall; intros t Hin.
    apply filter_In in Hin; destruct Hin as [_ H].
    apply negb_true_iff; exact H.
  - apply Forall_forall; intros t Hin.
    apply filter_In in Hin; tauto.
  - apply Subseq_refl.
  - apply Subseq_filter.
  - apply Subseq_filter.
  - intros t [H1 H2].
    apply filter_In in H1; apply filter_In in H2.
    destruct H1 as [_ H1], H2 as [_ H2].
    rewrite H2 in H1; discriminate.
  - intros Hin. destruct (completed t) eqn:Hc.
    + right; apply filter_In; tauto.
    + left; apply filter_In; rewrite Hc; tauto.
  - intros [H|H]; apply filter_In in H; tauto.
  - apply filter_partition_length.
Qed.

Lemma length_filter_count (l : list Task) :
  length (filter (fun t => completed t) l)
  = count_occ bool_dec (map completed l) true.
Proof.
  induction l as [|t l IH]; simpl; [reflexivity|].
  destruct (completed t); simpl; [f_equal; exact IH | exact IH].
Qed.

Lemma of_uint_before_space (u v : Decimal.uint) (x y : jsstring) :
  Str.of_uint u ++ 32 :: x = Str.of_uint v ++ 32 :: y -> u = v.
Proof.
  revert v; induction u as [|u IH|u IH|u IH|u IH|u IH|u IH|u IH|u IH|u IH|u IH];
    intros [|v|v|v|v|v|v|v|v|v|v] H; cbn [Str.of_uint app] in H;
    try discriminate; try reflexivity;
    injection H as H; f_equal; apply IH; exact H.
Qed.

Lemma count_text_inj (n m : nat) (x y : jsstring) :
  Str.of_N (N.of_nat n) ++ 32 :: x = Str.of_N (N.of_nat m) ++ 32 :: y ->
  n = m.
Proof.
  unfold Str.of_N. intros H. apply of_uint_before_space in H.
  apply DecimalN.Unsigned.to_uint_inj in H. apply Nat2N.inj, H.
Qed.

Lemma updateStats_total_text (a : TodoApp) :
  totalTasks_textContent (page (updateStats a))
  = Str.of_N (N.of_nat (length (tasks a))) ++ Str.lit " "
    ++ (if Nat.eqb (length (tasks a)) 1
        then Str.lit "task" else Str.lit "tasks").
Proof. reflexivity. Qed.

Lemma updateStats_completed_text (a : TodoApp) :
  completedTasks_textContent (page (updateStats a))
  = Str.of_N (N.of_nat (count_occ bool_dec (map completed (tasks a)) true))
    ++ Str.lit " completed".
Proof. rewrite <- length_filter_count. reflexivity. Qed.

(** C6.  Whatever filter is selected, [updateStats] writes the length of the
    whole task list, in decimal, followed by [task] or [tasks], and the
    number of tasks of the whole list whose [completed] is true, in decimal,
    followed by [completed].  The two texts are the same under every filter,
    they tell the two counts (stores with different counts get different
    texts), and on a page that shows the store they are still on display
    after a filter click. *)
Theorem stats_ignore_filter (f : jsstring) (a : TodoApp) :
  stats_total (setFilter f a) = length (tasks a)
  /\ stats_completed (setFilter f a)
     = count_occ bool_dec (map completed (tasks a)) true
  /\ totalTasks_textContent (page (updateStats (setFilter f a)))
     = totalTasks_textContent (page (updateStats a))
  /\ completedTasks_textContent (page (updateStats (setFilter f a)))
     = completedTasks_textContent (page (updateStats a))
  /\ totalTasks_textContent (page (updateStats (setFilter f a)))
     = Str.of_N (N.of_nat (length (tasks a))) ++ Str.lit " "
       ++ (if Nat.eqb (length (tasks a)) 1
           then Str.lit "task" else Str.lit "tasks")
  /\ completedTasks_textContent (page (updateStats (setFilter f a)))
     = Str.of_N (N.of_nat (count_occ bool_dec (map completed (tasks a)) true))
       ++ Str.lit " completed"
  /\ (forall b,
        totalTasks_textContent (page (updateStats a))
        = totalTasks_textContent (page (updateStats b)) ->
        length (tasks a) = length (tasks b))
  /\ (forall b,
        completedTasks_textContent (page (updateStats a))
        = completedTasks_textContent (page (updateStats b)) ->
        count_occ bool_dec (map completed (tasks a)) true
        = count_occ bool_dec (map completed (tasks b)) true)
  /\ (Rendered a ->
      totalTasks_textContent (page (setFilter f a))
      = Str.of_N (N.of_nat (length (tasks a))) ++ Str.lit " "
        ++ (if Nat.eqb (length (tasks a)) 1
            then Str.lit "task" else Str.lit "tasks")
      /\ completedTasks_textContent (page (setFilter f a))
         = Str.of_N
             (N.of_nat (count_occ bool_dec (map completed (tasks a)) true))
           ++ Str.lit " completed").
Proof.
  repeat split.
  - unfold stats_completed; rewrite tasks_setFilter.
    apply length_filter_count.
  - apply (updateStats_completed_text (setFilter f a)).
  - intros b H. rewrite !updateStats_total_text in H.
    change (Str.lit " ") with [32] in H. cbn [app] in H.
    apply count_text_inj in H. exact H.
  - intros b H. rewrite !updateStats_completed_text in H.
    change (Str.lit " completed") with (32 :: Str.lit "completed") in H.
    apply count_text_inj in H. exact H.
  - rewrite <- updateStats_total_text.
    unfold Rendered in H. rewrite <- H at 1. reflexivity.
  - rewrite <- updateStats_completed_text.
    unfold Rendered in H. rewrite <- H at 1. reflexivity.
Qed.

(* ================================================================= *)
(** ** Ids *)

Lemma ids_toggleTask (i : jsstring) (a : TodoApp) :
  ids (toggleTask i a) = ids a.
Proof. unfold ids; rewrite tasks_toggleTask; apply update_first_map_id. Qed.

Lemma ids_addTask (now : Z) (label : jsstring) (a : TodoApp) :
  Str.trim (taskInput_value (page a)) <> [] ->
  ids (addTask now label a) = Str.of_Z now :: ids a.
Proof. intros H; unfold ids; rewrite addTask_tasks by exact H; reflexivity. Qed.

(** C2, as the code has it.  From distinct ids, [toggleTask], [deleteTask],
    [clearCompleted] and [setFilter] give distinct ids again.  [addTask]
    takes the id from the clock: when it adds a task, the ids stay distinct
    exactly when the current time, written in decimal, is not already an id
    of the list. *)
Theorem ids_distinct_preserved (a : TodoApp) :
  NoDup (ids a) ->
  (forall i, NoDup (ids (toggleTask i a)))
  /\ (forall i, NoDup (ids (deleteTask i a)))
  /\ NoDup (ids (clearCompleted a))
  /\ (forall f, NoDup (ids (setFilter f a)))
  /\ (forall now label,
        Str.trim (taskInput_value (page a)) = [] ->
        NoDup (ids (addTask now label a)))
  /\ (forall now label,
        Str.trim (taskInput_value (page a)) <> [] ->
        (NoDup (ids (addTask now label a)) <-> ~ In (Str.of_Z now) (ids a))).
Proof.
  intros Hnd; repeat split.
  - intros i; rewrite ids_toggleTask; exact Hnd.
  - intros i; unfold ids; rewrite tasks_deleteTask.
    eapply Subseq_NoDup; [apply Subseq_map, Subseq_filter | exact Hnd].
  - unfold ids; rewrite tasks_clearCompleted.
    eapply Subseq_NoDup; [apply Subseq_map, Subseq_filter | exact Hnd].
  - intros f; exact Hnd.
  - intros now label He; rewrite addTask_blank by exact He; exact Hnd.
  - rewrite ids_addTask by assumption.
    intros H'; inversion H'; assumption.
  - rewrite ids_addTask by assumption.
    intros Hfresh; constructor; assumption.
Qed.

Lemma ids_distinct_preserved_witness :
  NoDup (ids two_tasks)
  /\ (forall i, NoDup (ids (toggleTask i two_tasks)))
  /\ (forall i, NoDup (ids (deleteTask i two_tasks)))
  /\ NoDup (ids (clearCompleted two_tasks))
  /\ (forall f, NoDup (ids (setFilter f two_tasks)))
  /\ (forall now label,
        Str.trim (taskInput_value (page two_tasks)) = [] ->
        NoDup (ids (addTask now label two_tasks)))
  /\ (forall now label,
        Str.trim (taskInput_value (page two_tasks)) <> [] ->
        (NoDup (ids (addTask now label two_tasks))
         <-> ~ In (Str.of_Z now) (ids two_tasks))).
Proof.
  assert (H : NoDup (ids two_tasks)).
  { vm_compute. constructor; [|constructor; [|constructor]].
    - intros [H|[]]; discriminate.
    - intros []. }
  split; [exact H | exact (ids_distinct_preserved two_tasks H)].
Defined.

(** C2 fails as stated: two tasks added within the same millisecond get the
    same id. *)
Lemma same_millisecond_same_id :
  let a1 := addTask 1700000000000 (Str.lit "10:30")
              (type_text (Str.lit "a") fresh_app) in
  let a2 := addTask 1700000000000 (Str.lit "10:30")
              (type_text (Str.lit "b") a1) in
  NoDup (ids a1)
  /\ map text (tasks a2) = [Str.lit "b"; Str.lit "a"]
  /\ ids a2 = [Str.lit "1700000000000"; Str.lit "1700000000000"]
  /\ ~ NoDup (ids a2).
Proof.
  cbv zeta; repeat split.
  - vm_compute; constructor; [intros [] | constructor].
  - vm_compute; intros H; inversion H as [|x l Hn _]; subst.
    apply Hn; left; reflexivity.
Qed.

(* ================================================================= *)
(** ** Task text *)

(** C4, as the code has it.  [addTask] stores the trimmed input, code unit
    for code unit, and leaves the texts already stored alone; [toggleTask]
    and [setFilter] keep every (id, text) pair, [deleteTask] and
    [clearCompleted] keep the pairs of the tasks they do not remove, in
    order. *)
Theorem text_stored_trimmed (now : Z) (label txt : jsstring) (a : TodoApp) :
  Str.trim txt <> [] ->
  texts (addTask now label (type_text txt a))
  = (Str.of_Z now, Str.trim txt) :: texts a
  /\ (forall i, texts (toggleTask i a) = texts a)
  /\ (forall i, Subseq (texts (deleteTask i a)) (texts a))
  /\ Subseq (texts (clearCompleted a)) (texts a)
  /\ (forall f, texts (setFilter f a) = texts a).
Proof.
  intros Hne; repeat split.
  - unfold texts.
    rewrite (addTask_tasks now label (type_text txt a)) by exact Hne.
    reflexivity.
  - intros i; unfold texts; rewrite tasks_toggleTask.
    apply update_first_texts.
  - intros i; unfold texts; rewrite tasks_deleteTask.
    apply Subseq_map, Subseq_filter.
  - unfold texts; rewrite tasks_clearCompleted.
    apply Subseq_map, Subseq_filter.
Qed.

Lemma text_stored_trimmed_witness :
  Str.trim (Str.lit " a<b ") <> []
  /\ texts (addTask 5 (Str.lit "10:30") (type_text (Str.lit " a<b ") two_tasks))
     = (Str.lit "5", Str.lit "a<b") :: texts two_tasks.
Proof.
  split; [vm_compute; discriminate|].
  apply (text_stored_trimmed 5 (Str.lit "10:30") (Str.lit " a<b ") two_tasks).
  vm_compute; discriminate.
Defined.

(** C4 fails as stated: the stored text is the trimmed input, not the
    input. *)
Lemma trimmed_text_on_store :
  Str.trim (Str.lit " a ") <> []
  /\ map text
       (tasks (addTask 5 (Str.lit "10:30")
                 (type_text (Str.lit " a ") fresh_app)))
     = [Str.lit "a"]
  /\ Str.lit "a" <> Str.lit " a ".
Proof.
  repeat split; vm_compute; discriminate.
Qed.

(* ================================================================= *)
(** ** JSON text of strings *)

Lemma hex_digit_value (d : N) :
  d < 16 -> Json.hex_value (Json.hex_digit d) = Some d.
Proof.
  intros H.
  assert (E : d = 0 \/ d = 1 \/ d = 2 \/ d = 3 \/ d = 4 \/ d = 5 \/ d = 6
              \/ d = 7 \/ d = 8 \/ d = 9 \/ d = 10 \/ d = 11 \/ d = 12
              \/ d = 13 \/ d = 14 \/ d = 15) by lia.
  repeat (destruct E as [->|E]; [reflexivity|]); subst; reflexivity.
Qed.

Lemma hex4_escape (c : N) :
  c < 65536 ->
  Json.hex4 (Json.hex_digit (c / 4096)) (Json.hex_digit ((c / 256) mod 16))
    (Json.hex_digit ((c / 16) mod 16)) (Json.hex_digit (c mod 16)) = Some c.
Proof.
  intros H. unfold Json.hex4.
  rewrite !hex_digit_value.
  - f_equal. zify. Z.to_euclidean_division_equations. lia.
  - apply N.mod_lt; lia.
  - apply N.mod_lt; lia.
  - apply N.mod_lt; lia.
  - apply N.Div0.div_lt_upper_bound; lia.
Qed.

Lemma parse_chars_plain (c : N) (rest str r : jsstring) :
  c <> 34 -> c <> 92 -> 32 <= c ->
  Json.parse_chars rest = Some (str, r) ->
  Json.parse_chars (c :: rest) = Some (c :: str, r).
Proof.
  intros H1 H2 H3 H.
  cbn [Json.parse_chars].
  apply N.eqb_neq in H1, H2. rewrite H1, H2.
  assert (Hlt : (c <? 32) = false) by (apply N.ltb_ge; exact H3).
  rewrite Hlt, H; reflexivity.
Qed.

Lemma parse_chars_unicode_escape (c : N) (rest str r : jsstring) :
  c < 65536 ->
  Json.parse_chars rest = Some (str, r) ->
  Json.parse_chars (Json.unicode_escape c ++ rest) = Some (c :: str, r).
Proof.
  intros Hc H. unfold Json.unicode_escape.
  cbn [app Json.parse_chars].
  change (92 =? 34) with false. change (92 =? 92) with true.
  change (117 =? 117) with true. cbv iota.
  rewrite hex4_escape by exact Hc. rewrite H; reflexivity.
Qed.

Lemma parse_chars_quote_unit (c : N) (rest str r : jsstring) :
  Json.parse_chars rest = Some (str, r) ->
  Json.parse_chars (Json.quote_unit c ++ rest) = Some (c :: str, r).
Proof.
  intros H. unfold Json.quote_unit.
  repeat match goal with
         | |- context [N.eqb c ?k] =>
             destruct (N.eqb_spec c k) as [->|?];
             [cbn [app Json.parse_chars]; simpl; rewrite H; reflexivity|]
         end.
  destruct (_ || _) eqn:Hesc.
  - apply parse_chars_unicode_escape; [|exact H].
    unfold Json.is_high_surrogate, Json.is_low_surrogate in Hesc.
    rewrite !orb_true_iff, !andb_true_iff, N.ltb_lt, !N.leb_le in Hesc. lia.
  - cbn [app]. apply parse_chars_plain; auto.
    rewrite !orb_false_iff, N.ltb_ge in Hesc. tauto.
Qed.

Lemma parse_chars_quote_units_bounded (n : nat) :
  forall (s rest : jsstring), (length s <= n)%nat ->
  Json.parse_chars (Json.quote_units s ++ 34 :: rest) = Some (s, rest).
Proof.
  induction n as [|n IH]; intros [|c s] rest Hlen; simpl in Hlen;
    try reflexivity; try lia.
  cbn [Json.quote_units].
  destruct (Json.is_high_surrogate c) eqn:Hhi.
  - unfold Json.is_high_surrogate in Hhi.
    rewrite andb_true_iff, !N.leb_le in Hhi.
    destruct s as [|d s'].
    + apply parse_chars_unicode_escape; [lia | reflexivity].
    + destruct (Json.is_low_surrogate d) eqn:Hlo.
      * unfold Json.is_low_surrogate in Hlo.
        rewrite andb_true_iff, !N.leb_le in Hlo.
        cbn [app]. apply parse_chars_plain; try lia.
        apply parse_chars_plain; try lia.
        apply IH. simpl in Hlen; lia.
      * rewrite <- app_assoc. apply parse_chars_unicode_escape; [lia|].
        apply IH. simpl in Hlen |- *; lia.
  - rewrite <- app_assoc. apply parse_chars_quote_unit.
    apply IH. lia.
Qed.

Lemma parse_chars_quote_units (s rest : jsstring) :
  Json.parse_chars (Json.quote_units s ++ 34 :: rest) = Some (s, rest).
Proof. apply (parse_chars_quote_units_bounded (length s)); lia. Qed.

Lemma parse_value_string (f : nat) (s rest : jsstring) :
  Json.parse_value (S f) (Json.quote s ++ rest) = Json.Parsed (Json.String s) rest.
Proof.
  unfold Json.quote. cbn [app]. rewrite <- app_assoc. cbn [app].
  simpl. rewrite parse_chars_quote_units. reflexivity.
Qed.


Lemma parse_elements_last
    (f : nat) (etext : jsstring) (v : Json.value) (rest : jsstring) :
  Json.parse_value f (etext ++ 93 :: rest) = Json.Parsed v (93 :: rest) ->
  Json.parse_elements (S f) (etext ++ 93 :: rest) = Json.Parsed [v] rest.
Proof. intros H. cbn [Json.parse_elements]. rewrite H. reflexivity. Qed.

Lemma parse_elements_more
    (f : nat) (etext more : jsstring) (v : Json.value)
    (vs : list Json.value) (rest : jsstring) :
  Json.parse_value f (etext ++ 44 :: more) = Json.Parsed v (44 :: more) ->
  Json.parse_elements f more = Json.Parsed vs rest ->
  Json.parse_elements (S f) (etext ++ 44 :: more) = Json.Parsed (v :: vs) rest.
Proof.
  intros H1 H2. cbn [Json.parse_elements]. rewrite H1.
  cbn [Json.skip_ws]. simpl orb. cbv iota.
  change (44 =? 44) with true. cbv iota. rewrite H2. reflexivity.
Qed.

Lemma parse_members_last
    (f : nat) (k vtext : jsstring) (v : Json.value) (rest : jsstring) :
  Json.parse_value f (vtext ++ 125 :: rest) = Json.Parsed v (125 :: rest) ->
  Json.parse_members (S f) (Json.quote k ++ 58 :: vtext ++ 125 :: rest)
  = Json.Parsed [(k, v)] rest.
Proof.
  intros H. cbn [Json.parse_members]. unfold Json.quote.
  cbn [app Json.skip_ws]. simpl orb. cbv iota.
  change (34 =? 34) with true. cbv iota.
  rewrite <- app_assoc. cbn [app]. rewrite parse_chars_quote_units.
  cbn [Json.skip_ws]. simpl orb. cbv iota.
  change (58 =? 58) with true. cbv iota.
  rewrite H. reflexivity.
Qed.

Lemma parse_members_more
    (f : nat) (k vtext more : jsstring) (v : Json.value)
    (ms : list (jsstring * Json.value)) (rest : jsstring) :
  Json.parse_value f (vtext ++ 44 :: more) = Json.Parsed v (44 :: more) ->
  Json.parse_members f more = Json.Parsed ms rest ->
  Json.parse_members (S f) (Json.quote k ++ 58 :: vtext ++ 44 :: more)
  = Json.Parsed ((k, v) :: ms) rest.
Proof.
  intros H1 H2. cbn [Json.parse_members]. unfold Json.quote.
  cbn [app Json.skip_ws]. simpl orb. cbv iota.
  change (34 =? 34) with true. cbv iota.
  rewrite <- app_assoc. cbn [app]. rewrite parse_chars_quote_units.
  cbn [Json.skip_ws]. simpl orb. cbv iota.
  change (58 =? 58) with true. cbv iota.
  rewrite H1.
  cbn [Json.skip_ws]. simpl orb. cbv iota.
  change (44 =? 44) with true. cbv iota.
  rewrite H2. reflexivity.
Qed.

Lemma parse_value_object
    (f : nat) (body : jsstring) (ms : list (jsstring * Json.value))
    (rest : jsstring) :
  Json.parse_members f (34 :: body) = Json.Parsed ms rest ->
  Json.parse_value (S f) (123 :: 34 :: body)
  = Json.Parsed (Json.build_object ms) rest.
Proof.
  intros H. cbn [Json.parse_value Json.skip_ws]. simpl orb. cbv iota.
  change (123 =? 34) with false. change (123 =? 91) with false.
  change (123 =? 123) with true. cbv iota.
  cbn [Json.skip_ws]. simpl orb. cbv iota.
  change (34 =? 125) with false. cbv iota.
  rewrite H. reflexivity.
Qed.

Lemma parse_value_array
    (f : nat) (body : jsstring) (vs : list Json.value) (rest : jsstring) :
  Json.parse_elements f (123 :: body) = Json.Parsed vs rest ->
  Json.parse_value (S f) (91 :: 123 :: body) = Json.Parsed (Json.Array vs) rest.
Proof.
  intros H. cbn [Json.parse_value Json.skip_ws]. simpl orb. cbv iota.
  change (91 =? 34) with false. change (91 =? 91) with true. cbv iota.
  cbn [Json.skip_ws]. simpl orb. cbv iota.
  change (123 =? 93) with false. cbv iota.
  rewrite H. reflexivity.
Qed.

Lemma parse_value_bool (f : nat) (b : bool) (rest : jsstring) :
  Json.parse_value (S f) (Json.stringify_bool b ++ rest)
  = Json.Parsed (Json.Bool b) rest.
Proof. destruct b; reflexivity. Qed.


Lemma quote_app (k r : jsstring) :
  Json.quote k ++ r = 34 :: Json.quote_units k ++ 34 :: r.
Proof. unfold Json.quote. cbn [app]. rewrite <- app_assoc. reflexivity. Qed.

Lemma parse_value_task (f : nat) (t : Task) (rest : jsstring) :
  Json.parse_value (6 + f) (stringify_task t ++ rest)
  = Json.Parsed (task_value t) rest.
Proof.
  destruct t as [i x c d].
  unfold stringify_task, task_value.
  cbn [id text completed createdAt].
  change (Str.lit "{") with [123]. change (Str.lit ":") with [58].
  change (Str.lit ",") with [44]. change (Str.lit "}") with [125].
  repeat rewrite <- app_assoc. cbn [app Nat.add].
  rewrite (quote_app (Str.lit "id")).
  change (Json.Object ?ms) with (Json.build_object ms).
  apply parse_value_object. rewrite <- quote_app.
  apply parse_members_more; [apply parse_value_string|].
  apply parse_members_more; [apply parse_value_string|].
  apply parse_members_more; [apply parse_value_bool|].
  apply parse_members_last. apply parse_value_string.
Qed.

Lemma as_task_value (t : Task) : as_task (task_value t) = Some t.
Proof. destruct t; reflexivity. Qed.

Lemma as_tasks_values (ts : list Task) :
  as_tasks (map task_value ts) = Some ts.
Proof.
  induction ts as [|t ts IH]; [reflexivity|].
  cbn [map as_tasks]. rewrite as_task_value, IH. reflexivity.
Qed.

Lemma as_task_inv (v : Json.value) (t : Task) :
  as_task v = Some t -> v = task_value t.
Proof.
  unfold as_task.
  destruct v as [| | | |vs|ms]; try discriminate.
  destruct ms as [|[k1 [| | |i| |]] ms]; try discriminate.
  destruct ms as [|[k2 [| | |x| |]] ms]; try discriminate.
  destruct ms as [|[k3 [|c| | | |]] ms]; try discriminate.
  destruct ms as [|[k4 [| | |d| |]] ms]; try discriminate.
  destruct ms; try discriminate.
  destruct (Str.eqb k1 _) eqn:E1; [|discriminate].
  destruct (Str.eqb k2 _) eqn:E2; [|discriminate].
  destruct (Str.eqb k3 _) eqn:E3; [|discriminate].
  destruct (Str.eqb k4 _) eqn:E4; [|discriminate].
  apply str_eqb_eq in E1, E2, E3, E4. subst.
  cbn [andb]. intros [= <-]. reflexivity.
Qed.

Lemma as_tasks_inv (vs : list Json.value) (ts : list Task) :
  as_tasks vs = Some ts -> vs = map task_value ts.
Proof.
  revert ts; induction vs as [|v vs IH]; intros ts; cbn [as_tasks].
  - intros [= <-]; reflexivity.
  - destruct (as_task v) as [t|] eqn:Et; [|discriminate].
    destruct (as_tasks vs) as [ts'|]; [|discriminate].
    intros [= <-]. cbn [map]. f_equal; [apply as_task_inv, Et | apply IH].
    reflexivity.
Qed.

Lemma render_throws_tasks (ts : list Task) :
  render_throws (map task_value ts) = false.
Proof.
  unfold render_throws. apply orb_false_iff; split.
  - induction ts as [|t ts IH]; [reflexivity|]. cbn [map existsb].
    rewrite IH. reflexivity.
  - induction ts as [|t ts IH]; [reflexivity|]. cbn [map existsb].
    rewrite IH. reflexivity.
Qed.

Lemma stringify_task_head (t : Task) :
  exists body, stringify_task t = 123 :: body.
Proof. eexists; reflexivity. Qed.

Lemma parse_elements_tasks (f : nat) (t : Task) (ts : list Task) (rest : jsstring) :
  Json.parse_elements (7 + length ts + f)
    (stringify_elements (t :: ts) ++ 93 :: rest)
  = Json.Parsed (map task_value (t :: ts)) rest.
Proof.
  revert t f; induction ts as [|u ts IH]; intros t f.
  - cbn [stringify_elements length map Nat.add].
    apply parse_elements_last. apply (parse_value_task f).
  - change (stringify_elements (t :: u :: ts))
      with (stringify_task t ++ Str.lit "," ++ stringify_elements (u :: ts)).
    change (Str.lit ",") with [44].
    repeat rewrite <- app_assoc. cbn [app length map].
    replace (7 + S (length ts) + f)%nat with (S (7 + length ts + f)) by lia.
    apply parse_elements_more.
    + apply (parse_value_task (1 + length ts + f)).
    + apply IH.
Qed.


Lemma parse_value_tasks (ts : list Task) (f : nat) (rest : jsstring) :
  Json.parse_value (8 + length ts + f) (stringify_tasks ts ++ rest)
  = Json.Parsed (Json.Array (map task_value ts)) rest.
Proof.
  unfold stringify_tasks. change (Str.lit "[") with [91].
  change (Str.lit "]") with [93].
  repeat rewrite <- app_assoc. cbn [app].
  destruct ts as [|t ts]; [reflexivity|].
  destruct (stringify_task_head t) as [body Hb].
  assert (Hs : exists b, stringify_elements (t :: ts) = 123 :: b).
  { destruct ts; cbn [stringify_elements]; rewrite Hb; eexists; reflexivity. }
  destruct Hs as [b Hs].
  generalize (parse_elements_tasks (S f) t ts rest). rewrite Hs. cbn [app].
  intros H.
  replace (8 + length (t :: ts) + f)%nat with (S (7 + length ts + S f))
    by (cbn [length]; lia).
  apply parse_value_array. exact H.
Qed.

Lemma stringify_elements_length (t : Task) (ts : list Task) :
  (length (t :: ts) < length (stringify_elements (t :: ts)))%nat.
Proof.
  revert t; induction ts as [|u ts IH]; intros t.
  - destruct (stringify_task_head t) as [body Hb].
    cbn [stringify_elements]. unfold stringify_task in *.
    rewrite !length_app. simpl. lia.
  - change (stringify_elements (t :: u :: ts))
      with (stringify_task t ++ Str.lit "," ++ stringify_elements (u :: ts)).
    rewrite !length_app. specialize (IH u). simpl in *. lia.
Qed.

Lemma parse_stringify_tasks (ts : list Task) :
  Json.parse (stringify_tasks ts) = Some (Json.Array (map task_value ts)).
Proof.
  destruct ts as [|t ts]; [reflexivity|].
  unfold Json.parse.
  pose proof (stringify_elements_length t ts) as Hlen.
  assert (Hfuel : exists f,
             (2 * length (stringify_tasks (t :: ts)) + 2
              = 8 + length (t :: ts) + f)%nat).
  { exists (2 * length (stringify_tasks (t :: ts)) + 2 - 8 - length (t :: ts))%nat.
    unfold stringify_tasks. rewrite !length_app.
    change (length (Str.lit "[")) with 1%nat.
    change (length (Str.lit "]")) with 1%nat. lia. }
  destruct Hfuel as [f ->].
  pose proof (parse_value_tasks (t :: ts) f []) as H.
  rewrite app_nil_r in H. rewrite H. reflexivity.
Qed.

Lemma constructor_stringify (p : Page) (ts : list Task) :
  constructor p (Some (stringify_tasks ts))
  = Started (render (mkApp ts (Str.lit "all") p (Some (stringify_tasks ts)))).
Proof.
  unfold constructor, stored_text. rewrite parse_stringify_tasks.
  cbn [Json.truthy]. rewrite render_throws_tasks, as_tasks_values.
  reflexivity.
Qed.

(* ================================================================= *)
(** ** The parser always has fuel enough *)

Lemma skip_ws_length (s : jsstring) : (length (Json.skip_ws s) <= length s)%nat.
Proof.
  induction s as [|c s IH]; simpl; [lia|].
  destruct (_ || _); simpl; lia.
Qed.

Lemma parse_chars_length_bounded (n : nat) :
  forall s str r, (length s <= n)%nat ->
  Json.parse_chars s = Some (str, r) -> (length r < length s)%nat.
Proof.
  induction n as [|n IH]; intros [|c s] str r Hlen H; simpl in Hlen;
    try discriminate; try lia.
  cbn [Json.parse_chars] in H.
  destruct (c =? 34).
  { injection H as <- <-. simpl; lia. }
  destruct (c =? 92).
  - destruct s as [|e r1]; [discriminate|].
    destruct (e =? 117).
    + destruct r1 as [|h1 [|h2 [|h3 [|h4 r2]]]]; try discriminate.
      destruct (Json.hex4 h1 h2 h3 h4); [|discriminate].
      destruct (Json.parse_chars r2) as [[str' rest]|] eqn:E; [|discriminate].
      injection H as <- <-.
      apply IH in E; simpl in *; lia.
    + destruct (Json.simple_escape e); [|discriminate].
      destruct (Json.parse_chars r1) as [[str' rest]|] eqn:E; [|discriminate].
      injection H as <- <-.
      apply IH in E; simpl in *; lia.
  - destruct (c <? 32); [discriminate|].
    destruct (Json.parse_chars s) as [[str' rest]|] eqn:E; [|discriminate].
    injection H as <- <-.
    apply IH in E; simpl in *; lia.
Qed.

Lemma parse_chars_length (s str r : jsstring) :
  Json.parse_chars s = Some (str, r) -> (length r < length s)%nat.
Proof. apply (parse_chars_length_bounded (length s)); lia. Qed.

Lemma take_digits_length (s : jsstring) :
  forall acc len n k r,
    Json.take_digits acc len s = (n, k, r) -> (length r <= length s)%nat.
Proof.
  induction s as [|c s IH]; intros acc len n k r H; simpl in H.
  - injection H as <- <- <-; simpl; lia.
  - destruct (Json.is_digit c).
    + apply IH in H; simpl; lia.
    + injection H as <- <- <-; simpl; lia.
Qed.

Lemma expect_length (w s r : jsstring) :
  Json.expect w s = Some r -> (length r <= length s)%nat.
Proof.
  revert s; induction w as [|x w IH]; intros s H; simpl in H.
  - injection H as <-; lia.
  - destruct s as [|c s]; [discriminate|].
    destruct (c =? x); [|discriminate].
    apply IH in H; simpl; lia.
Qed.

Lemma parse_int_length (s : jsstring) (n : N) (r : jsstring) :
  Json.parse_int s = Some (n, r) -> (length r < length s)%nat.
Proof.
  destruct s as [|c s]; [discriminate|].
  unfold Json.parse_int.
  destruct (c =? 48).
  { intros [= <- <-]; simpl; lia. }
  destruct (Json.is_digit c) eqn:Hd; [|discriminate].
  cbn [Json.take_digits]. rewrite Hd.
  destruct (Json.take_digits _ _ s) as [[n' k] rest] eqn:E.
  intros [= <- <-]. apply take_digits_length in E. simpl; lia.
Qed.

Lemma parse_frac_length (i : N) (s : jsstring) (n : N) (k : nat) (r : jsstring) :
  Json.parse_frac i s = Some (n, k, r) -> (length r <= length s)%nat.
Proof.
  destruct s as [|c s]; simpl.
  { intros [= <- <- <-]; simpl; lia. }
  destruct (c =? 46).
  - destruct (Json.take_digits i 0 s) as [[n' k'] rest] eqn:E.
    apply take_digits_length in E.
    destruct k'; [discriminate|]. intros [= <- <- <-]. simpl; lia.
  - intros [= <- <- <-]; simpl; lia.
Qed.

Lemma parse_exp_length (s : jsstring) (e : Z) (r : jsstring) :
  Json.parse_exp s = Some (e, r) -> (length r <= length s)%nat.
Proof.
  destruct s as [|c s]; simpl.
  { intros [= <- <-]; simpl; lia. }
  destruct (_ || _).
  - destruct s as [|x s'].
    + simpl. discriminate.
    + destruct (x =? 43); [|destruct (x =? 45)];
        match goal with
        | |- context [Json.take_digits 0 0 ?t] =>
            destruct (Json.take_digits 0 0 t) as [[n' k'] rest] eqn:E
        end;
        apply take_digits_length in E;
        (destruct k'; [discriminate|]); intros [= <- <-]; simpl in *; lia.
  - intros [= <- <-]; simpl; lia.
Qed.

Lemma parse_number_length (s : jsstring) (v : Json.value) (r : jsstring) :
  Json.parse_number s = Some (v, r) -> (length r < length s)%nat.
Proof.
  unfold Json.parse_number.
  set (p := match s with
            | [] => (false, s)
            | c :: r0 => if c =? 45 then (true, r0) else (false, s)
            end).
  assert (Hp : (length (snd p) <= length s)%nat).
  { subst p. destruct s as [|c s]; simpl; [lia|].
    destruct (c =? 45); simpl; lia. }
  destruct p as [neg s1]; simpl in Hp.
  destruct (Json.parse_int s1) as [[i s2]|] eqn:E1; [|discriminate].
  destruct (Json.parse_frac i s2) as [[[d k] s3]|] eqn:E2; [|discriminate].
  destruct (Json.parse_exp s3) as [[e s4]|] eqn:E3; [|discriminate].
  intros [= <- <-].
  apply parse_int_length in E1. apply parse_frac_length in E2.
  apply parse_exp_length in E3. lia.
Qed.

Lemma parse_shrinks (f : nat) :
  (forall s v r,
      Json.parse_value f s = Json.Parsed v r -> (length r < length s)%nat)
  /\ (forall s vs r,
         Json.parse_elements f s = Json.Parsed vs r ->
         (length r < length s)%nat)
  /\ (forall s ms r,
         Json.parse_members f s = Json.Parsed ms r ->
         (length r < length s)%nat).
Proof.
  induction f as [|f (IHv & IHe & IHm)];
    [repeat split; intros; discriminate|].
  repeat split.
  - intros s v r H. cbn [Json.parse_value] in H.
    pose proof (skip_ws_length s) as L.
    destruct (Json.skip_ws s) as [|c r0]; [discriminate|]. cbn [length] in L.
    destruct (c =? 34).
    { destruct (Json.parse_chars r0) as [[str rest]|] eqn:E; [|discriminate].
      injection H as <- <-. apply parse_chars_length in E. lia. }
    destruct (c =? 91).
    { pose proof (skip_ws_length r0) as L'.
      destruct (Json.skip_ws r0) as [|c' r']; [discriminate|].
      cbn [length] in L'.
      destruct (c' =? 93); [injection H as <- <-; lia|].
      destruct (Json.parse_elements f r0) eqn:E; try discriminate.
      injection H as <- <-. apply IHe in E. lia. }
    destruct (c =? 123).
    { pose proof (skip_ws_length r0) as L'.
      destruct (Json.skip_ws r0) as [|c' r']; [discriminate|].
      cbn [length] in L'.
      destruct (c' =? 125); [injection H as <- <-; lia|].
      destruct (Json.parse_members f r0) eqn:E; try discriminate.
      injection H as <- <-. apply IHm in E. lia. }
    destruct (c =? 116).
    { destruct (Json.expect _ r0) eqn:E; [|discriminate].
      injection H as <- <-. apply expect_length in E. lia. }
    destruct (c =? 102).
    { destruct (Json.expect _ r0) eqn:E; [|discriminate].
      injection H as <- <-. apply expect_length in E. lia. }
    destruct (c =? 110).
    { destruct (Json.expect _ r0) eqn:E; [|discriminate].
      injection H as <- <-. apply expect_length in E. lia. }
    destruct (Json.parse_number (c :: r0)) as [[v' rest]|] eqn:E;
      [|discriminate].
    injection H as <- <-. apply parse_number_length in E.
    cbn [length] in E. lia.
  - intros s vs r H. cbn [Json.parse_elements] in H.
    destruct (Json.parse_value f s) as [v r1| |] eqn:E; try discriminate.
    apply IHv in E.
    pose proof (skip_ws_length r1) as L.
    destruct (Json.skip_ws r1) as [|c r']; [discriminate|]. cbn [length] in L.
    destruct (c =? 44).
    { destruct (Json.parse_elements f r') eqn:E'; try discriminate.
      injection H as <- <-. apply IHe in E'. lia. }
    destruct (c =? 93); [|discriminate].
    injection H as <- <-. lia.
  - intros s ms r H. cbn [Json.parse_members] in H.
    pose proof (skip_ws_length s) as L.
    destruct (Json.skip_ws s) as [|q r0]; [discriminate|]. cbn [length] in L.
    destruct (q =? 34); [|discriminate].
    destruct (Json.parse_chars r0) as [[key r1]|] eqn:E0; [|discriminate].
    apply parse_chars_length in E0.
    pose proof (skip_ws_length r1) as L1.
    destruct (Json.skip_ws r1) as [|colon r2]; [discriminate|].
    cbn [length] in L1.
    destruct (colon =? 58); [|discriminate].
    destruct (Json.parse_value f r2) as [v r3| |] eqn:E; try discriminate.
    apply IHv in E.
    pose proof (skip_ws_length r3) as L3.
    destruct (Json.skip_ws r3) as [|c r4]; [discriminate|].
    cbn [length] in L3.
    destruct (c =? 44).
    { destruct (Json.parse_members f r4) eqn:E'; try discriminate.
      injection H as <- <-. apply IHm in E'. lia. }
    destruct (c =? 125); [|discriminate].
    injection H as <- <-. lia.
Qed.

Lemma fuel_enough (f : nat) :
  (forall s, (2 * length s < f)%nat -> Json.parse_value f s <> Json.OutOfFuel)
  /\ (forall s, (2 * length s + 1 < f)%nat ->
                Json.parse_elements f s <> Json.OutOfFuel)
  /\ (forall s, (2 * length s + 1 < f)%nat ->
                Json.parse_members f s <> Json.OutOfFuel).
Proof.
  induction f as [|f (IHv & IHe & IHm)]; [repeat split; intros; lia|].
  destruct (parse_shrinks f) as (Sv & Se & Sm).
  repeat split.
  - intros s Hf. cbn [Json.parse_value].
    pose proof (skip_ws_length s) as L.
    destruct (Json.skip_ws s) as [|c r0]; [discriminate|]. cbn [length] in L.
    destruct (c =? 34).
    { destruct (Json.parse_chars r0) as [[str rest]|]; discriminate. }
    destruct (c =? 91).
    { destruct (Json.skip_ws r0) as [|c' r']; [discriminate|].
      destruct (c' =? 93); [discriminate|].
      destruct (Json.parse_elements f r0) eqn:E; try discriminate.
      apply IHe in E; [contradiction | lia]. }
    destruct (c =? 123).
    { destruct (Json.skip_ws r0) as [|c' r']; [discriminate|].
      destruct (c' =? 125); [discriminate|].
      destruct (Json.parse_members f r0) eqn:E; try discriminate.
      apply IHm in E; [contradiction | lia]. }
    destruct (c =? 116); [destruct (Json.expect _ r0); discriminate|].
    destruct (c =? 102); [destruct (Json.expect _ r0); discriminate|].
    destruct (c =? 110); [destruct (Json.expect _ r0); discriminate|].
    destruct (Json.parse_number (c :: r0)) as [[v' rest]|]; discriminate.
  - intros s Hf. cbn [Json.parse_elements].
    destruct (Json.parse_value f s) as [v r1| |] eqn:E; try discriminate.
    + apply Sv in E.
      pose proof (skip_ws_length r1) as L.
      destruct (Json.skip_ws r1) as [|c r']; [discriminate|].
      cbn [length] in L.
      destruct (c =? 44).
      * destruct (Json.parse_elements f r') eqn:E'; try discriminate.
        apply IHe in E'; [contradiction | lia].
      * destruct (c =? 93); discriminate.
    + apply IHv in E; [contradiction | lia].
  - intros s Hf. cbn [Json.parse_members].
    pose proof (skip_ws_length s) as L.
    destruct (Json.skip_ws s) as [|q r0]; [discriminate|]. cbn [length] in L.
    destruct (q =? 34); [|discriminate].
    destruct (Json.parse_chars r0) as [[key r1]|] eqn:E0; [|discriminate].
    apply parse_chars_length in E0.
    pose proof (skip_ws_length r1) as L1.
    destruct (Json.skip_ws r1) as [|colon r2]; [discriminate|].
    cbn [length] in L1.
    destruct (colon =? 58); [|discriminate].
    destruct (Json.parse_value f r2) as [v r3| |] eqn:E; try discriminate.
    + apply Sv in E.
      pose proof (skip_ws_length r3) as L3.
      destruct (Json.skip_ws r3) as [|c r4]; [discriminate|].
      cbn [length] in L3.
      destruct (c =? 44).
      * destruct (Json.parse_members f r4) eqn:E'; try discriminate.
        apply IHm in E'; [contradiction | lia].
      * destruct (c =? 125); discriminate.
    + apply IHv in E; [contradiction | lia].
Qed.

(** [Json.parse] never stops for lack of fuel: its [None] is a syntax
    error. *)
Lemma parse_never_out_of_fuel (text : jsstring) :
  Json.parse_value (2 * length text + 2) text <> Json.OutOfFuel.
Proof. apply (fuel_enough (2 * length text + 2)); lia. Qed.

Lemma fuel_monotone (f : nat) :
  forall g, (f <= g)%nat ->
  (forall s, Json.parse_value f s <> Json.OutOfFuel ->
             Json.parse_value g s = Json.parse_value f s)
  /\ (forall s, Json.parse_elements f s <> Json.OutOfFuel ->
                Json.parse_elements g s = Json.parse_elements f s)
  /\ (forall s, Json.parse_members f s <> Json.OutOfFuel ->
                Json.parse_members g s = Json.parse_members f s).
Proof.
  induction f as [|f IH]; intros g Hle.
  { repeat split; intros s H; exfalso; apply H; reflexivity. }
  destruct g as [|g]; [lia|].
  destruct (IH g ltac:(lia)) as (IHv & IHe & IHm).
  repeat split; intros s H.
  - cbn [Json.parse_value] in *.
    destruct (Json.skip_ws s) as [|c r0]; [reflexivity|].
    destruct (c =? 34); [reflexivity|].
    destruct (c =? 91).
    { destruct (Json.skip_ws r0) as [|c' r']; [reflexivity|].
      destruct (c' =? 93); [reflexivity|].
      rewrite IHe; [reflexivity|].
      intros E; rewrite E in H; apply H; reflexivity. }
    destruct (c =? 123); [|reflexivity].
    destruct (Json.skip_ws r0) as [|c' r']; [reflexivity|].
    destruct (c' =? 125); [reflexivity|].
    rewrite IHm; [reflexivity|].
    intros E; rewrite E in H; apply H; reflexivity.
  - cbn [Json.parse_elements] in *.
    rewrite IHv by (intros E; rewrite E in H; apply H; reflexivity).
    destruct (Json.parse_value f s) as [v r1| |]; try reflexivity.
    destruct (Json.skip_ws r1) as [|c r']; [reflexivity|].
    destruct (c =? 44); [|reflexivity].
    rewrite IHe; [reflexivity|].
    intros E; rewrite E in H; apply H; reflexivity.
  - cbn [Json.parse_members] in *.
    destruct (Json.skip_ws s) as [|q r0]; [reflexivity|].
    destruct (q =? 34); [|reflexivity].
    destruct (Json.parse_chars r0) as [[key r1]|]; [|reflexivity].
    destruct (Json.skip_ws r1) as [|colon r2]; [reflexivity|].
    destruct (colon =? 58); [|reflexivity].
    rewrite IHv by (intros E; rewrite E in H; apply H; reflexivity).
    destruct (Json.parse_value f r2) as [v r3| |]; try reflexivity.
    destruct (Json.skip_ws r3) as [|c r4]; [reflexivity|].
    destruct (c =? 44); [|reflexivity].
    rewrite IHm; [reflexivity|].
    intros E; rewrite E in H; apply H; reflexivity.
Qed.

(** Any larger amount of fuel gives [Json.parse] the same answer. *)
Lemma parse_fuel_irrelevant (text : jsstring) (g : nat) :
  (2 * length text + 2 <= g)%nat ->
  Json.parse_value g text = Json.parse_value (2 * length text + 2) text.
Proof.
  intros Hle. apply (fuel_monotone _ g Hle), parse_never_out_of_fuel.
Qed.

(* ================================================================= *)
(** ** Persistence *)

Lemma Reloads_saved (p : Page) (a : TodoApp) :
  localStorage a = Some (stringify_tasks (tasks a)) -> Reloads p a.
Proof.
  intros H. unfold Reloads. rewrite H, constructor_stringify.
  eexists; split; reflexivity.
Qed.

(** C7.  The text [saveToLocalStorage] writes is read back by the
    constructor as the same task list: same length, same order, and the same
    [id], [text], [completed] and [createdAt] in every task.  Every
    operation that changes the list leaves such a text behind. *)
Theorem persistence_roundtrip (p : Page) (a : TodoApp) :
  constructor p (localStorage (saveToLocalStorage a))
  = Started (render (mkApp (tasks a) (Str.lit "all") p
                       (Some (stringify_tasks (tasks a)))))
  /\ Reloads p (saveToLocalStorage a)
  /\ (forall i, Reloads p (deleteTask i a))
  /\ Reloads p (clearCompleted a)
  /\ (forall i, In i (ids a) -> Reloads p (toggleTask i a))
  /\ (forall now label,
        Str.trim (taskInput_value (page a)) <> [] ->
        Reloads p (addTask now label a)).
Proof.
  repeat split.
  - apply constructor_stringify.
  - apply Reloads_saved; reflexivity.
  - intros i; apply Reloads_saved; reflexivity.
  - apply Reloads_saved; reflexivity.
  - intros i Hin. apply Reloads_saved. unfold toggleTask.
    destruct (find _ (tasks a)) eqn:Hf; [reflexivity|].
    exfalso. unfold ids in Hin. apply in_map_iff in Hin.
    destruct Hin as (t & Ht & Hin).
    apply (find_none _ _ Hf) in Hin. simpl in Hin.
    rewrite Ht, str_eqb_refl in Hin. discriminate.
  - intros now label Hne. apply Reloads_saved. unfold addTask.
    destruct (Str.trim (taskInput_value (page a))); [congruence|reflexivity].
Qed.

(* ================================================================= *)
(** ** Start-up *)

Lemma render_throws_iff (vs : list Json.value) :
  render_throws vs = true
  <-> In Json.Null vs
      \/ exists e k, In e vs
                     /\ In k [Str.lit "id"; Str.lit "text"; Str.lit "createdAt"]
                     /\ printable_property k e = false.
Proof.
  unfold render_throws. rewrite orb_true_iff, !existsb_exists. split.
  - intros [(e & Hin & He)|(e & Hin & He)].
    + left. destruct e; try discriminate. exact Hin.
    + right. apply negb_true_iff in He.
      rewrite !andb_false_iff in He.
      destruct He as [[He|He]|He]; eexists e, _; (split; [exact Hin|]);
        (split; [|exact He]); simpl; tauto.
  - intros [Hin|(e & k & Hin & Hk & He)].
    + left. exists Json.Null. split; [exact Hin | reflexivity].
    + right. exists e. split; [exact Hin|]. apply negb_true_iff.
      simpl in Hk. destruct Hk as [<-|[<-|[<-|[]]]]; rewrite He;
        rewrite ?andb_false_r; reflexivity.
Qed.

(** C1, as the code has it.  With the key absent, or holding text that
    parses to a falsy value, the constructor returns a store with no tasks.
    Text that is not JSON makes it throw a SyntaxError.  Text that parses to
    a truthy value other than an array makes it throw a TypeError, and so
    does an array with an element that is [null], or whose [id], [text] or
    [createdAt] cannot be converted to text.  Every other array is kept as
    the task list, element for element, whatever its elements are and
    however their keys are laid out. *)
Theorem constructor_outcomes (p : Page) (stored : option jsstring) :
  (stored = None ->
   constructor p stored = Started (render (mkApp [] (Str.lit "all") p None)))
  /\ (forall v, Json.parse (stored_text stored) = Some v ->
                Json.truthy v = false ->
                exists a, constructor p stored = Started a /\ tasks a = [])
  /\ (Json.parse (stored_text stored) = None ->
      constructor p stored = Threw SyntaxError)
  /\ (forall v, Json.parse (stored_text stored) = Some v ->
                Json.truthy v = true ->
                (forall vs, v <> Json.Array vs) ->
                constructor p stored = Threw TypeError)
  /\ (forall vs, Json.parse (stored_text stored) = Some (Json.Array vs) ->
                (In Json.Null vs
                 \/ exists e k,
                      In e vs
                      /\ In k [Str.lit "id"; Str.lit "text";
                               Str.lit "createdAt"]
                      /\ printable_property k e = false) ->
                constructor p stored = Threw TypeError)
  /\ (forall vs, Json.parse (stored_text stored) = Some (Json.Array vs) ->
                ~ In Json.Null vs ->
                (forall e k, In e vs ->
                             In k [Str.lit "id"; Str.lit "text";
                                   Str.lit "createdAt"] ->
                             printable_property k e = true) ->
                started_array (constructor p stored) = Some vs)
  /\ (forall vs ts, Json.parse (stored_text stored) = Some (Json.Array vs) ->
                   as_tasks vs = Some ts ->
                   constructor p stored
                   = Started (render (mkApp ts (Str.lit "all") p stored))).
Proof.
  repeat split.
  - intros ->; reflexivity.
  - intros v Hp Hf. unfold constructor. rewrite Hp, Hf.
    eexists; split; reflexivity.
  - intros Hp. unfold constructor. rewrite Hp. reflexivity.
  - intros v Hp Ht Hna. unfold constructor. rewrite Hp, Ht.
    destruct v; try reflexivity. exfalso; eapply Hna; reflexivity.
  - intros vs Hp Hthrow. apply render_throws_iff in Hthrow.
    unfold constructor. rewrite Hp. cbn [Json.truthy]. rewrite Hthrow.
    reflexivity.
  - intros vs Hp Hnull Hprint.
    assert (Hno : render_throws vs = false).
    { destruct (render_throws vs) eqn:E; [|reflexivity].
      apply render_throws_iff in E.
      destruct E as [E|(e & k & Hin & Hk & He)]; [contradiction|].
      rewrite (Hprint e k Hin Hk) in He. discriminate. }
    unfold constructor. rewrite Hp. cbn [Json.truthy]. rewrite Hno.
    destruct (as_tasks vs) as [ts|] eqn:Ets; [|reflexivity].
    cbn [started_array tasks render renderTasks updateStats set_page].
    apply as_tasks_inv in Ets. rewrite Ets. reflexivity.
  - intros vs ts Hp Hts. unfold constructor. rewrite Hp.
    cbn [Json.truthy].
    rewrite (as_tasks_inv _ _ Hts), render_throws_tasks, as_tasks_values.
    reflexivity.
Qed.

(** C1 fails as stated: stored text that is not JSON, or that is JSON but
    not an array, or an array with a [null] in it, ends the constructor with
    an exception; an array of other things than tasks is kept, not replaced
    by the empty list. *)
Lemma malformed_blob_throws :
  constructor blank_page (Some (Str.lit "{")) = Threw SyntaxError
  /\ constructor blank_page (Some []) = Threw SyntaxError
  /\ constructor blank_page (Some (Str.lit "{}")) = Threw TypeError
  /\ constructor blank_page (Some (Str.lit "[null]")) = Threw TypeError
  /\ constructor blank_page (Some (Str.lit "[1]"))
     = StartedWith [Json.Number false 1 0].
Proof. repeat split. Qed.

Example constructor_falsy_blobs :
  constructor blank_page None = Started fresh_app
  /\ constructor blank_page (Some (Str.lit "null"))
     = Started (set_storage (Some (Str.lit "null")) fresh_app)
  /\ constructor blank_page (Some (Str.lit " 0.0e5 "))
     = Started (set_storage (Some (Str.lit " 0.0e5 ")) fresh_app)
  /\ constructor blank_page (Some [34; 34])
     = Started (set_storage (Some [34; 34]) fresh_app).
Proof. repeat split. Qed.

(* ================================================================= *)
(** ** Toggling, deleting and clearing, composed *)

Lemma flip_completed_twice (t : Task) : flip_completed (flip_completed t) = t.
Proof. destruct t as [i x c d]; unfold flip_completed; simpl.
       rewrite negb_involutive; reflexivity. Qed.

Lemma update_first_flip_twice (i : jsstring) (l : list Task) :
  update_first (fun t => Str.eqb (id t) i) flip_completed
    (update_first (fun t => Str.eqb (id t) i) flip_completed l) = l.
Proof.
  induction l as [|t l IH]; simpl; [reflexivity|].
  destruct (Str.eqb (id t) i) eqn:E; simpl.
  - rewrite E, flip_completed_twice; reflexivity.
  - rewrite E, IH; reflexivity.
Qed.

(** X1.  Toggling the same id twice gives back the task list as it was,
    whether or not a task has that id. *)
Theorem toggleTask_twice (i : jsstring) (a : TodoApp) :
  tasks (toggleTask i (toggleTask i a)) = tasks a
  /\ stats_completed (toggleTask i (toggleTask i a)) = stats_completed a.
Proof.
  assert (H : tasks (toggleTask i (toggleTask i a)) = tasks a).
  { rewrite !tasks_toggleTask. apply update_first_flip_twice. }
  split; [exact H|]. unfold stats_completed; rewrite H; reflexivity.
Qed.

Lemma filter_none {A : Type} (p q : A -> bool) (l : list A) :
  (forall x, q x = true -> p x = false) -> filter p (filter q l) = [].
Proof.
  intros H; induction l as [|x l IH]; simpl; [reflexivity|].
  destruct (q x) eqn:Hq; simpl; [rewrite (H x Hq)|]; exact IH.
Qed.

Lemma filter_twice {A : Type} (p : A -> bool) (l : list A) :
  filter p (filter p l) = filter p l.
Proof.
  induction l as [|x l IH]; simpl; [reflexivity|].
  destruct (p x) eqn:Hp; simpl; [rewrite Hp, IH|]; auto.
Qed.

Lemma filter_swap {A : Type} (p q : A -> bool) (l : list A) :
  filter p (filter q l) = filter q (filter p l).
Proof.
  induction l as [|x l IH]; simpl; [reflexivity|].
  destruct (q x) eqn:Hq, (p x) eqn:Hp; simpl;
    rewrite ?Hq, ?Hp, IH; reflexivity.
Qed.

(** X2.  After the clear-completed shortcut no completed task is left: the
    [completed] view is empty and the completed count is zero; the tasks
    kept are exactly the ones the [active] view showed, in order, so doing it
    a second time changes nothing. *)
Theorem clearCompleted_leaves_active (a : TodoApp) :
  view (Str.lit "completed") (clearCompleted a) = []
  /\ stats_completed (clearCompleted a) = 0%nat
  /\ tasks (clearCompleted a) = view (Str.lit "active") a
  /\ tasks (clearCompleted (clearCompleted a)) = tasks (clearCompleted a).
Proof.
  assert (H : filter (fun t => completed t)
                (filter (fun t => negb (completed t)) (tasks a)) = []).
  { apply filter_none. intros t Ht. apply negb_true_iff; exact Ht. }
  repeat split.
  - rewrite view_completed, tasks_clearCompleted. exact H.
  - unfold stats_completed. rewrite tasks_clearCompleted, H. reflexivity.
  - rewrite !tasks_clearCompleted. apply filter_twice.
Qed.

Lemma filter_drop_unique (i : jsstring) (pre post : list Task) (t : Task) :
  NoDup (map id (pre ++ t :: post)) -> id t = i ->
  filter (fun u => negb (Str.eqb (id u) i)) (pre ++ t :: post) = pre ++ post.
Proof.
  intros Hnd Hid.
  rewrite map_app in Hnd. cbn [map] in Hnd.
  pose proof (NoDup_remove_2 _ _ _ Hnd) as Hnot.
  rewrite Hid in Hnot.
  rewrite filter_app. cbn [filter].
  replace (Str.eqb (id t) i) with true
    by (symmetry; apply str_eqb_eq; exact Hid).
  cbn [negb]. f_equal; apply filter_absent.
  - assert (Hp : ~ In i (map id pre))
      by (intros H; apply Hnot, in_or_app; left; exact H).
    apply id_absent in Hp. revert Hp; apply Forall_impl.
    intros u ->; reflexivity.
  - assert (Hp : ~ In i (map id post))
      by (intros H; apply Hnot, in_or_app; right; exact H).
    apply id_absent in Hp. revert Hp; apply Forall_impl.
    intros u ->; reflexivity.
Qed.

(** X3.  When the ids are distinct, [deleteTask] with the id of a stored
    task removes that task and nothing else: the tasks before and after it
    stay, in order, and the total drops by exactly one. *)
Theorem deleteTask_removes_one
    (pre post : list Task) (t : Task) (a : TodoApp) :
  NoDup (ids a) -> tasks a = pre ++ t :: post ->
  tasks (deleteTask (id t) a) = pre ++ post
  /\ S (stats_total (deleteTask (id t) a)) = stats_total a.
Proof.
  intros Hnd Ht. unfold ids in Hnd. rewrite Ht in Hnd.
  assert (H : tasks (deleteTask (id t) a) = pre ++ post).
  { rewrite tasks_deleteTask, Ht.
    apply filter_drop_unique; [exact Hnd | reflexivity]. }
  split; [exact H|].
  unfold stats_total. rewrite H, Ht, !length_app. simpl. lia.
Qed.

Lemma deleteTask_removes_one_witness :
  NoDup (ids two_tasks)
  /\ tasks (deleteTask (Str.lit "8") two_tasks)
     = [mkTask (Str.lit "7") (Str.lit "a") false (Str.lit "10:30")]
  /\ S (stats_total (deleteTask (Str.lit "8") two_tasks))
     = stats_total two_tasks.
Proof.
  assert (H : NoDup (ids two_tasks)).
  { vm_compute. constructor; [|constructor; [|constructor]].
    - intros [H|[]]; discriminate.
    - intros []. }
  split; [exact H|].
  exact (deleteTask_removes_one []
           [mkTask (Str.lit "7") (Str.lit "a") false (Str.lit "10:30")]
           (mkTask (Str.lit "8") (Str.lit "b") true (Str.lit "10:31"))
           two_tasks H eq_refl).
Defined.

(** X4.  Deleting two ids gives the same task list in either order, and
    deleting an id a second time removes nothing more. *)
Theorem deleteTask_commutes (i j : jsstring) (a : TodoApp) :
  tasks (deleteTask i (deleteTask j a)) = tasks (deleteTask j (deleteTask i a))
  /\ tasks (deleteTask i (deleteTask i a)) = tasks (deleteTask i a)
  /\ tasks (clearCompleted (deleteTask i a))
     = tasks (deleteTask i (clearCompleted a)).
Proof.
  rewrite !tasks_clearCompleted, !tasks_deleteTask, !tasks_clearCompleted.
  repeat split.
  - apply filter_swap.
  - apply filter_twice.
  - apply filter_swap.
Qed.

Lemma update_first_count (i : jsstring) (l : list Task) (t : Task) :
  find (fun u => Str.eqb (id u) i) l = Some t ->
  (length (filter (fun u => completed u)
             (update_first (fun u => Str.eqb (id u) i) flip_completed l))
   + (if completed t then 1 else 0)
   = length (filter (fun u => completed u) l)
     + (if completed t then 0 else 1))%nat.
Proof.
  induction l as [|u l IH]; simpl; [discriminate|].
  destruct (Str.eqb (id u) i) eqn:E.
  - intros [= ->]. simpl. destruct (completed t); simpl; lia.
  - intros H. specialize (IH H). simpl. destruct (completed u); simpl; lia.
Qed.

Lemma find_none_absent (i : jsstring) (l : list Task) :
  find (fun u => Str.eqb (id u) i) l = None ->
  Forall (fun u => Str.eqb (id u) i = false) l.
Proof.
  intros H. apply Forall_forall. intros u Hin.
  exact (find_none _ _ H u Hin).
Qed.

(** X5.  [toggleTask] never changes the total, whether or not a task has
    the id.  When the first task with the id was not completed the completed
    count grows by one, when it was completed the count drops by one, and
    when no task has the id the count stays. *)
Theorem toggleTask_counts (i : jsstring) (a : TodoApp) :
  stats_total (toggleTask i a) = stats_total a
  /\ (forall t,
        find (fun u => Str.eqb (id u) i) (tasks a) = Some t ->
        (stats_completed (toggleTask i a) + (if completed t then 1 else 0)
         = stats_completed a + (if completed t then 0 else 1))%nat)
  /\ (find (fun u => Str.eqb (id u) i) (tasks a) = None ->
      stats_completed (toggleTask i a) = stats_completed a).
Proof.
  unfold stats_total, stats_completed.
  rewrite tasks_toggleTask. repeat split.
  - rewrite <- (length_map id), update_first_map_id, length_map. reflexivity.
  - intros t Hf. apply update_first_count; exact Hf.
  - intros Hf. rewrite update_first_absent; [reflexivity|].
    apply find_none_absent; exact Hf.
Qed.

Lemma toggleTask_counts_witness :
  stats_total (toggleTask (Str.lit "7") two_tasks) = stats_total two_tasks
  /\ (stats_completed (toggleTask (Str.lit "7") two_tasks) + 0
      = stats_completed two_tasks + 1)%nat
  /\ stats_total (toggleTask (Str.lit "9") two_tasks) = stats_total two_tasks
  /\ stats_completed (toggleTask (Str.lit "9") two_tasks)
     = stats_completed two_tasks.
Proof.
  destruct (toggleTask_counts (Str.lit "7") two_tasks) as (H1 & H2 & _).
  destruct (toggleTask_counts (Str.lit "9") two_tasks) as (H3 & _ & H4).
  split; [exact H1|].
  split; [exact (H2 (mkTask (Str.lit "7") (Str.lit "a") false
                       (Str.lit "10:30")) eq_refl)|].
  split; [exact H3 | exact (H4 eq_refl)].
Defined.

(* ================================================================= *)
(** ** Filters and their buttons *)

(** X6.  A filter value other than [active] and [completed] takes the
    default branch: the whole list is shown, one item per task, in order. *)
Theorem unknown_filter_shows_all (f : jsstring) (a : TodoApp) :
  f <> Str.lit "active" -> f <> Str.lit "completed" ->
  view f a = tasks a
  /\ map item_id (taskList_innerHTML (page (setFilter f a))) = ids a.
Proof.
  intros H1 H2.
  assert (Hv : getFilteredTasks (setFilter f a) = tasks a).
  { unfold getFilteredTasks. cbn [setFilter currentFilter renderTasks
      updateFilterButtons set_filter set_page].
    apply str_eqb_neq in H1, H2. rewrite H1, H2. reflexivity. }
  split; [exact Hv|].
  unfold setFilter at 1. unfold renderTasks at 1.
  cbn [page set_page taskList_innerHTML].
  change (getFilteredTasks (updateFilterButtons (set_filter f a)))
    with (getFilteredTasks (setFilter f a)).
  rewrite Hv, map_map. reflexivity.
Qed.

Lemma unknown_filter_shows_all_witness :
  Str.lit "done" <> Str.lit "active"
  /\ view (Str.lit "done") two_tasks = tasks two_tasks
  /\ map item_id (taskList_innerHTML (page (setFilter (Str.lit "done") two_tasks)))
     = ids two_tasks.
Proof.
  split; [discriminate|].
  apply (unknown_filter_shows_all (Str.lit "done") two_tasks); discriminate.
Defined.

Lemma marked_none (f : jsstring) (bs : list FilterButton) :
  ~ In f (map dataset_filter bs) ->
  length (filter (fun b => active b)
            (map (fun b => mkButton (dataset_filter b)
                             (Str.eqb (dataset_filter b) f)) bs)) = 0%nat.
Proof.
  induction bs as [|b bs IH]; simpl; [reflexivity|].
  intros Hn.
  assert (E : Str.eqb (dataset_filter b) f = false)
    by (apply str_eqb_neq; tauto).
  rewrite E. apply IH. tauto.
Qed.

Lemma marked_one (f : jsstring) (bs : list FilterButton) :
  NoDup (map dataset_filter bs) -> In f (map dataset_filter bs) ->
  length (filter (fun b => active b)
            (map (fun b => mkButton (dataset_filter b)
                             (Str.eqb (dataset_filter b) f)) bs)) = 1%nat.
Proof.
  induction bs as [|b bs IH]; simpl; [tauto|].
  intros Hnd Hin. inversion Hnd as [|x l Hnot Hnd']; subst.
  destruct (Str.eqb (dataset_filter b) f) eqn:E; simpl.
  - apply str_eqb_eq in E. subst f.
    rewrite marked_none by exact Hnot. reflexivity.
  - apply str_eqb_neq in E. apply IH; [exact Hnd' | tauto].
Qed.

(** X7.  On a page whose filter buttons have distinct [data-filter] values,
    a click on a filter button leaves exactly one button marked active when
    the chosen value is one of them, and none otherwise; a button is marked
    exactly when its value is the chosen one, and the values themselves are
    not touched. *)
Theorem setFilter_marks_one (f : jsstring) (a : TodoApp) :
  NoDup (map dataset_filter (filterButtons (page a))) ->
  (In f (map dataset_filter (filterButtons (page a))) ->
   active_buttons (setFilter f a) = 1%nat)
  /\ (~ In f (map dataset_filter (filterButtons (page a))) ->
      active_buttons (setFilter f a) = 0%nat)
  /\ Forall (fun b => active b = true <-> dataset_filter b = f)
       (filterButtons (page (setFilter f a)))
  /\ map dataset_filter (filterButtons (page (setFilter f a)))
     = map dataset_filter (filterButtons (page a)).
Proof.
  intros Hnd.
  assert (Hb : filterButtons (page (setFilter f a))
               = map (fun b => mkButton (dataset_filter b)
                                 (Str.eqb (dataset_filter b) f))
                   (filterButtons (page a))) by reflexivity.
  unfold active_buttons. rewrite Hb.
  repeat split.
  - intros Hin. apply marked_one; assumption.
  - intros Hn. apply marked_none; assumption.
  - apply Forall_forall. intros b Hin. apply in_map_iff in Hin.
    destruct Hin as (b0 & <- & _). simpl. apply str_eqb_eq.
  - rewrite map_map. reflexivity.
Qed.

Lemma setFilter_marks_one_witness :
  NoDup (map dataset_filter (filterButtons (page fresh_app)))
  /\ active_buttons (setFilter (Str.lit "active") fresh_app) = 1%nat.
Proof.
  assert (H : NoDup (map dataset_filter (filterButtons (page fresh_app)))).
  { vm_compute. repeat constructor.
    - intros [H|[H|[]]]; discriminate.
    - intros [H|[]]; discriminate.
    - intros []. }
  split; [exact H|].
  apply (setFilter_marks_one (Str.lit "active") fresh_app H).
  vm_compute. right; left; reflexivity.
Defined.

(* ================================================================= *)
(** ** The page follows the store *)

Lemma render_render (a : TodoApp) : render (render a) = render a.
Proof. reflexivity. Qed.

Lemma render_type_text (v : jsstring) (a : TodoApp) :
  render (type_text v a) = type_text v (render a).
Proof. reflexivity. Qed.

Lemma render_focus (a : TodoApp) :
  render (taskInput_focus a) = taskInput_focus (render a).
Proof. reflexivity. Qed.

Lemma Rendered_setFilter (f : jsstring) (a : TodoApp) :
  Rendered a -> Rendered (setFilter f a).
Proof.
  unfold Rendered. intros H.
  pose proof (f_equal (fun x => totalTasks_textContent (page x)) H) as Ht.
  pose proof (f_equal (fun x => completedTasks_textContent (page x)) H) as Hc.
  destruct a as [ts cf [v fo di ih hid tt ct fb] st].
  cbn in Ht, Hc. subst tt ct. reflexivity.
Qed.

Lemma Rendered_render (a : TodoApp) : Rendered (render a).
Proof. apply render_render. Qed.

Lemma Rendered_type_text (v : jsstring) (a : TodoApp) :
  Rendered a -> Rendered (type_text v a).
Proof.
  unfold Rendered; intros H. rewrite render_type_text, H. reflexivity.
Qed.

Lemma Rendered_focus (a : TodoApp) :
  Rendered a -> Rendered (taskInput_focus a).
Proof. unfold Rendered; intros H. rewrite render_focus, H. reflexivity. Qed.

Lemma Rendered_addTask (now : Z) (label : jsstring) (a : TodoApp) :
  Rendered a -> Rendered (addTask now label a).
Proof.
  intros H. unfold addTask.
  destruct (Str.trim (taskInput_value (page a)));
    [apply Rendered_focus; exact H | apply Rendered_render].
Qed.

Lemma Rendered_toggleTask (i : jsstring) (a : TodoApp) :
  Rendered a -> Rendered (toggleTask i a).
Proof.
  intros H. unfold toggleTask.
  destruct (find _ (tasks a)); [apply Rendered_render | exact H].
Qed.

Lemma Rendered_keydown (e : KeyboardEvent) (a : TodoApp) :
  Rendered a -> Rendered (document_keydown e a).
Proof.
  intros H. unfold document_keydown.
  destruct ((ctrlKey e || metaKey e) && shiftKey e && _);
    [apply Rendered_render|].
  destruct ((ctrlKey e || metaKey e) && _);
    [apply Rendered_focus; exact H | exact H].
Qed.

Lemma Rendered_handle (ev : Event) (a : TodoApp) :
  Rendered a -> Rendered (handle ev a).
Proof.
  intros H. destruct ev; cbn [handle].
  - apply Rendered_type_text; exact H.
  - apply Rendered_addTask; exact H.
  - unfold taskInput_keypress.
    destruct (Str.eqb k _); [apply Rendered_addTask|]; exact H.
  - apply Rendered_setFilter; exact H.
  - apply Rendered_toggleTask; exact H.
  - apply Rendered_render.
  - apply Rendered_keydown; exact H.
Qed.

Lemma constructor_Started (p : Page) (stored : option jsstring) (a : TodoApp) :
  constructor p stored = Started a ->
  exists ts, a = render (mkApp ts (Str.lit "all") p stored)
             /\ forall p', constructor p' stored
                           = Started (render (mkApp ts (Str.lit "all") p' stored)).
Proof.
  unfold constructor.
  destruct (Json.parse (stored_text stored)) as [v|]; [|discriminate].
  destruct (if Json.truthy v then v else Json.Array []); try discriminate.
  destruct (render_throws elements); [discriminate|].
  destruct (as_tasks elements) as [ts|]; [|discriminate].
  intros [= <-]. exists ts. split; reflexivity.
Qed.

(** X8.  The page always shows the store as it is.  A store of task objects
    the constructor returns is rendered, and it stays rendered through every
    sequence of events: the two count texts, the visibility of the list and of the empty
    state, and the displayed items are the ones [render] would write for the
    current tasks and filter (also after a filter click, which does not
    call [updateStats]). *)
Theorem page_follows_store
    (p : Page) (stored : option jsstring) (a : TodoApp) (evs : list Event) :
  constructor p stored = Started a ->
  Rendered (run evs a)
  /\ totalTasks_textContent (page (run evs a))
     = totalTasks_textContent (page (updateStats (run evs a)))
  /\ taskList_innerHTML (page (run evs a))
     = map (fun t => mkItem (id t) (completed t) (escapeHtml (text t))
                       (createdAt t))
         (getFilteredTasks (run evs a))
  /\ (emptyState_hidden (page (run evs a)) = false
      <-> getFilteredTasks (run evs a) = []).
Proof.
  intros Hc.
  assert (H0 : Rendered a).
  { apply constructor_Started in Hc. destruct Hc as (ts & -> & _).
    apply Rendered_render. }
  assert (H : Rendered (run evs a)).
  { clear Hc. revert a H0. induction evs as [|ev evs IH]; intros a H0;
      [exact H0|].
    cbn [run]. apply IH, Rendered_handle, H0. }
  split; [exact H|].
  unfold Rendered in H. set (b := run evs a) in *.
  repeat split.
  - rewrite <- H at 1. reflexivity.
  - rewrite <- H at 1. reflexivity.
  - rewrite <- H at 1. cbn.
    destruct (getFilteredTasks _); [reflexivity | discriminate].
  - intros E. rewrite <- H at 1. cbn.
    change (getFilteredTasks (updateStats b)) with (getFilteredTasks b).
    rewrite E. reflexivity.
Qed.

Lemma page_follows_store_witness :
  constructor blank_page None = Started fresh_app
  /\ Rendered
       (run [Edit (Str.lit "a"); AddClick 5 (Str.lit "10:30");
             FilterClick (Str.lit "completed"); CheckboxClick (Str.lit "5")]
          fresh_app).
Proof.
  split; [reflexivity|].
  apply (page_follows_store blank_page None fresh_app
           [Edit (Str.lit "a"); AddClick 5 (Str.lit "10:30");
            FilterClick (Str.lit "completed"); CheckboxClick (Str.lit "5")]).
  reflexivity.
Defined.

(* ================================================================= *)
(** ** What is stored survives a reload *)

(** Each event either leaves the task list and the stored text alone or
    ends with the list freshly written. *)
Lemma handle_storage (ev : Event) (a : TodoApp) :
  (tasks (handle ev a) = tasks a /\ localStorage (handle ev a) = localStorage a)
  \/ localStorage (handle ev a) = Some (stringify_tasks (tasks (handle ev a))).
Proof.
  assert (Hadd : forall now label,
             (tasks (addTask now label a) = tasks a
              /\ localStorage (addTask now label a) = localStorage a)
             \/ localStorage (addTask now label a)
                = Some (stringify_tasks (tasks (addTask now label a)))).
  { intros now label. unfold addTask.
    destruct (Str.trim (taskInput_value (page a)));
      [left; split; reflexivity | right; reflexivity]. }
  destruct ev; cbn [handle].
  - left; split; reflexivity.
  - apply Hadd.
  - unfold taskInput_keypress.
    destruct (Str.eqb k _); [apply Hadd | left; split; reflexivity].
  - left; split; reflexivity.
  - unfold toggleTask.
    destruct (find _ (tasks a));
      [right; reflexivity | left; split; reflexivity].
  - right; reflexivity.
  - unfold document_keydown.
    destruct ((ctrlKey e || metaKey e) && shiftKey e && _);
      [right; reflexivity|].
    destruct ((ctrlKey e || metaKey e) && _); left; split; reflexivity.
Qed.

Lemma Reloads_handle (ev : Event) (a : TodoApp) :
  (forall p, Reloads p a) -> forall p, Reloads p (handle ev a).
Proof.
  intros H p.
  destruct (handle_storage ev a) as [[Ht Hs]|Hs].
  - unfold Reloads. rewrite Hs, Ht. apply H.
  - apply Reloads_saved; exact Hs.
Qed.

(** X9.  A store of task objects loses nothing on a reload.  When the
    constructor has started with task objects laid out as [addTask] lays
    them out (from an absent key, from a falsy value, or from an array of
    such objects, which is what the store itself writes), then after every
    sequence of events the constructor, run again on what [localStorage]
    then holds, starts with the same task list; the filter is not stored
    and starts at [all] again.  A store started with other values
    ([StartedWith]) is not covered: a number too large for a double, for
    one, is written back as [null]. *)
Theorem reload_keeps_tasks
    (p : Page) (stored : option jsstring) (a : TodoApp) (evs : list Event)
    (p' : Page) :
  constructor p stored = Started a ->
  exists a', constructor p' (localStorage (run evs a)) = Started a'
             /\ tasks a' = tasks (run evs a)
             /\ currentFilter a' = Str.lit "all".
Proof.
  intros Hc.
  assert (H0 : forall q, Reloads q a).
  { apply constructor_Started in Hc. destruct Hc as (ts & -> & Hq).
    intros q. unfold Reloads. cbn [localStorage render renderTasks updateStats
      set_page]. rewrite Hq. eexists; split; reflexivity. }
  assert (H : forall q, Reloads q (run evs a)).
  { clear Hc. revert a H0. induction evs as [|ev evs IH]; intros a H0;
      [exact H0|].
    cbn [run]. apply IH, Reloads_handle, H0. }
  destruct (H p') as (a' & Ha' & Ht).
  exists a'. repeat split; try assumption.
  apply constructor_Started in Ha'. destruct Ha' as (ts & -> & _).
  reflexivity.
Qed.

Lemma reload_keeps_tasks_witness :
  constructor blank_page None = Started fresh_app
  /\ exists a',
       constructor blank_page
         (localStorage
            (run [Edit (Str.lit "a"); AddClick 5 (Str.lit "10:30");
                  CheckboxClick (Str.lit "5")] fresh_app)) = Started a'
       /\ tasks a'
          = tasks (run [Edit (Str.lit "a"); AddClick 5 (Str.lit "10:30");
                        CheckboxClick (Str.lit "5")] fresh_app)
       /\ currentFilter a' = Str.lit "all".
Proof.
  split; [reflexivity|].
  apply (reload_keeps_tasks blank_page None fresh_app
           [Edit (Str.lit "a"); AddClick 5 (Str.lit "10:30");
            CheckboxClick (Str.lit "5")] blank_page).
  reflexivity.
Defined.

(* ================================================================= *)
(** ** Order and ids of added tasks *)

Lemma run_app (evs1 evs2 : list Event) (a : TodoApp) :
  run (evs1 ++ evs2) a = run evs2 (run evs1 a).
Proof.
  revert a; induction evs1 as [|ev evs1 IH]; intros a; [reflexivity|].
  cbn [app run]. apply IH.
Qed.

Lemma tasks_typed_adds (entries : list (Z * jsstring * jsstring)) :
  Forall (fun e => Str.trim (snd e) <> []) entries ->
  forall a,
    tasks (run (typed_adds entries) a)
    = rev (map entry_task entries) ++ tasks a.
Proof.
  induction 1 as [|e entries He _ IH]; intros a; [reflexivity|].
  unfold typed_adds. cbn [flat_map]. rewrite run_app.
  fold (typed_adds entries). rewrite IH.
  cbn [run handle map rev].
  rewrite (addTask_tasks (fst (fst e)) (snd (fst e)) (type_text (snd e) a))
    by exact He.
  rewrite <- app_assoc. reflexivity.
Qed.

(** X10.  Newest first: after typing and adding a series of texts, none of
    them blank, the list holds one task per text in reverse order of entry,
    each with the trimmed text and not completed, in front of the tasks
    that were there before. *)
Theorem added_tasks_newest_first
    (entries : list (Z * jsstring * jsstring)) (a : TodoApp) :
  Forall (fun e => Str.trim (snd e) <> []) entries ->
  tasks (run (typed_adds entries) a) = rev (map entry_task entries) ++ tasks a
  /\ map text (tasks (run (typed_adds entries) a))
     = rev (map (fun e => Str.trim (snd e)) entries) ++ map text (tasks a)
  /\ stats_total (run (typed_adds entries) a)
     = (length entries + stats_total a)%nat.
Proof.
  intros H. pose proof (tasks_typed_adds entries H a) as Ht.
  repeat split.
  - exact Ht.
  - rewrite Ht, map_app, map_rev, map_map. reflexivity.
  - unfold stats_total. rewrite Ht, length_app, length_rev, length_map.
    reflexivity.
Qed.

Lemma added_tasks_newest_first_witness :
  Forall (fun e => Str.trim (snd e) <> [])
    [(1, Str.lit "10:30", Str.lit "A"); (2, Str.lit "10:30", Str.lit " B");
     (3, Str.lit "10:31", Str.lit "C ")]%Z
  /\ map text
       (tasks (run (typed_adds
                      [(1, Str.lit "10:30", Str.lit "A");
                       (2, Str.lit "10:30", Str.lit " B");
                       (3, Str.lit "10:31", Str.lit "C ")]%Z) fresh_app))
     = [Str.lit "C"; Str.lit "B"; Str.lit "A"].
Proof.
  assert (H : Forall (fun e : Z * jsstring * jsstring => Str.trim (snd e) <> [])
                [(1, Str.lit "10:30", Str.lit "A");
                 (2, Str.lit "10:30", Str.lit " B");
                 (3, Str.lit "10:31", Str.lit "C ")]%Z)
    by (repeat constructor; vm_compute; discriminate).
  split; [exact H|].
  exact (proj1 (proj2 (added_tasks_newest_first _ fresh_app H))).
Defined.

Lemma of_uint_inj (u u' : Decimal.uint) :
  Str.of_uint u = Str.of_uint u' -> u = u'.
Proof.
  revert u'; induction u as [|u IH|u IH|u IH|u IH|u IH|u IH|u IH|u IH|u IH|u IH];
    intros [|v|v|v|v|v|v|v|v|v|v] H; simpl in H;
    try discriminate; try reflexivity;
    injection H as H; f_equal; apply IH; exact H.
Qed.

Lemma of_uint_head (u : Decimal.uint) (c : N) (r : jsstring) :
  Str.of_uint u = c :: r -> 48 <= c <= 57.
Proof. destruct u; simpl; intros [= <- _]; lia. Qed.

Lemma of_N_inj (n m : N) : Str.of_N n = Str.of_N m -> n = m.
Proof.
  unfold Str.of_N. intros H.
  apply DecimalN.Unsigned.to_uint_inj, of_uint_inj, H.
Qed.

Lemma of_Z_inj (z z' : Z) : Str.of_Z z = Str.of_Z z' -> z = z'.
Proof.
  assert (Hneg : forall p n, 45 :: Str.of_N (N.pos p) <> Str.of_N n).
  { intros p n H. symmetry in H. apply of_uint_head in H. lia. }
  destruct z as [|p|p], z' as [|q|q]; unfold Str.of_Z; intros H;
    try reflexivity;
    try (exfalso; exact (Hneg _ _ H));
    try (exfalso; symmetry in H; exact (Hneg _ _ H)).
  - apply of_N_inj in H. lia.
  - apply of_N_inj in H. lia.
  - apply of_N_inj in H. lia.
  - injection H as H. apply of_N_inj in H. congruence.
Qed.

(** X11.  Ids come apart when the clock does.  The decimal text of the
    clock reading determines the reading, so tasks added at pairwise
    different readings, none of which is the id of a task already stored,
    leave all ids distinct. *)
Theorem distinct_clock_distinct_ids
    (entries : list (Z * jsstring * jsstring)) (a : TodoApp) :
  Forall (fun e => Str.trim (snd e) <> []) entries ->
  NoDup (map (fun e => fst (fst e)) entries) ->
  (forall e, In e entries -> ~ In (Str.of_Z (fst (fst e))) (ids a)) ->
  NoDup (ids a) ->
  NoDup (ids (run (typed_adds entries) a)).
Proof.
  intros Hne Hclock Hfresh Hnd.
  unfold ids. rewrite (tasks_typed_adds entries Hne a), map_app, map_rev.
  apply NoDup_app.
  - apply NoDup_rev. rewrite map_map. cbn [entry_task id].
    rewrite <- (map_map (fun e => fst (fst e)) Str.of_Z).
    apply NoDup_map_NoDup_ForallPairs; [|exact Hclock].
    intros x y _ _. apply of_Z_inj.
  - exact Hnd.
  - intros i Hin Hin'. apply in_rev, in_map_iff in Hin.
    destruct Hin as (t & <- & Ht). apply in_map_iff in Ht.
    destruct Ht as (e & <- & He). exact (Hfresh e He Hin').
Qed.

Lemma distinct_clock_distinct_ids_witness :
  NoDup (map (fun e : Z * jsstring * jsstring => fst (fst e))
           [(1700000000000, Str.lit "10:30", Str.lit "a");
            (1700000000001, Str.lit "10:30", Str.lit "b")]%Z)
  /\ NoDup (ids (run (typed_adds
                        [(1700000000000, Str.lit "10:30", Str.lit "a");
                         (1700000000001, Str.lit "10:30", Str.lit "b")]%Z)
                   fresh_app)).
Proof.
  assert (H : NoDup (map (fun e : Z * jsstring * jsstring => fst (fst e))
                       [(1700000000000, Str.lit "10:30", Str.lit "a");
                        (1700000000001, Str.lit "10:30", Str.lit "b")]%Z)).
  { cbn [map fst]. constructor; [|constructor; [|constructor]].
    - intros [H|[]]; discriminate.
    - intros []. }
  split; [exact H|].
  apply (distinct_clock_distinct_ids
           [(1700000000000, Str.lit "10:30", Str.lit "a");
            (1700000000001, Str.lit "10:30", Str.lit "b")]%Z fresh_app).
  - repeat constructor; vm_compute; discriminate.
  - exact H.
  - intros e _ [].
  - constructor.
Defined.

(* ================================================================= *)
(** ** Stored texts *)

Lemma trimStart_head (s : jsstring) (c : N) (r : jsstring) :
  Str.trimStart s = c :: r -> Str.is_space c = false.
Proof.
  induction s as [|x s IH]; simpl; [discriminate|].
  destruct (Str.is_space x) eqn:E; [exact IH|].
  intros [= <- _]; exact E.
Qed.

Lemma trimStart_fixed (s : jsstring) :
  (forall c r, s = c :: r -> Str.is_space c = false) -> Str.trimStart s = s.
Proof.
  destruct s as [|x s]; intros H; [reflexivity|].
  simpl. rewrite (H x s eq_refl). reflexivity.
Qed.

Lemma trimStart_suffix (s : jsstring) : exists sp, s = sp ++ Str.trimStart s.
Proof.
  induction s as [|x s [sp IH]]; [exists []; reflexivity|].
  simpl. destruct (Str.is_space x).
  - exists (x :: sp). simpl. f_equal. exact IH.
  - exists []. reflexivity.
Qed.

Lemma trim_trim (s : jsstring) : Str.trim (Str.trim s) = Str.trim s.
Proof.
  unfold Str.trim, Str.trimEnd.
  remember (Str.trimStart s) as t eqn:Et.
  destruct (trimStart_suffix (rev t)) as [sp Hsp].
  remember (Str.trimStart (rev t)) as u eqn:Eu.
  assert (A : Str.trimStart (rev u) = rev u).
  { apply trimStart_fixed. intros c r Hr.
    apply (f_equal (@rev N)) in Hsp.
    rewrite rev_involutive, rev_app_distr, Hr in Hsp.
    apply (trimStart_head s c (r ++ rev sp)).
    rewrite <- Et, Hsp. reflexivity. }
  assert (B : Str.trimStart u = u).
  { apply trimStart_fixed. intros c r Hr.
    apply (trimStart_head (rev t) c r). rewrite <- Eu. exact Hr. }
  rewrite A, rev_involutive, B. reflexivity.
Qed.

Lemma Forall_update_first (P : Task -> Prop) (p : Task -> bool) (l : list Task) :
  (forall t, P t -> P (flip_completed t)) ->
  Forall P l -> Forall P (update_first p flip_completed l).
Proof.
  intros Hf. induction 1 as [|t l Ht Hl IH]; simpl; [constructor|].
  destruct (p t); constructor; auto.
Qed.

Lemma Forall_filter_keep {A : Type} (P : A -> Prop) (p : A -> bool) (l : list A) :
  Forall P l -> Forall P (filter p l).
Proof.
  rewrite !Forall_forall. intros H x Hin. apply filter_In in Hin.
  apply H; tauto.
Qed.

Lemma Trimmed_addTask (now : Z) (label : jsstring) (a : TodoApp) :
  Trimmed a -> Trimmed (addTask now label a).
Proof.
  intros H.
  destruct (Str.trim (taskInput_value (page a))) as [|c r] eqn:E.
  - rewrite addTask_blank by exact E. exact H.
  - unfold Trimmed. rewrite addTask_tasks by (rewrite E; discriminate).
    constructor; [|exact H]. cbn [text]. split.
    + rewrite E; discriminate.
    + apply trim_trim.
Qed.

Lemma Trimmed_clearCompleted (a : TodoApp) :
  Trimmed a -> Trimmed (clearCompleted a).
Proof.
  unfold Trimmed. rewrite tasks_clearCompleted. apply Forall_filter_keep.
Qed.

Lemma Trimmed_handle (ev : Event) (a : TodoApp) :
  Trimmed a -> Trimmed (handle ev a).
Proof.
  intros H. destruct ev; cbn [handle].
  - exact H.
  - apply Trimmed_addTask; exact H.
  - unfold taskInput_keypress.
    destruct (Str.eqb k _); [apply Trimmed_addTask|]; exact H.
  - exact H.
  - unfold Trimmed. rewrite tasks_toggleTask.
    apply Forall_update_first; [|exact H].
    intros t Ht; exact Ht.
  - unfold Trimmed. rewrite tasks_deleteTask.
    apply Forall_filter_keep; exact H.
  - unfold document_keydown.
    destruct ((ctrlKey e || metaKey e) && shiftKey e && _);
      [apply Trimmed_clearCompleted|];
      (destruct ((ctrlKey e || metaKey e) && _); exact H).
Qed.

(** X12.  No blank and no padded text is ever stored: if every stored text
    is non-empty and has no white space at either end, then so it is after
    every sequence of events.  This holds in particular for every store
    that starts without tasks. *)
Theorem texts_stay_trimmed (evs : list Event) (a : TodoApp) :
  Trimmed a ->
  Forall (fun t => text t <> [] /\ Str.trim (text t) = text t)
    (tasks (run evs a)).
Proof.
  revert a; induction evs as [|ev evs IH]; intros a H; [exact H|].
  cbn [run]. apply IH, Trimmed_handle, H.
Qed.

Lemma texts_stay_trimmed_witness :
  Trimmed fresh_app
  /\ Forall (fun t => text t <> [] /\ Str.trim (text t) = text t)
       (tasks (run [Edit (Str.lit "  a b  ");
                    KeyPress (Str.lit "Enter") 5 (Str.lit "10:30");
                    Edit (Str.lit "   "); AddClick 6 (Str.lit "10:30")]
                 fresh_app)).
Proof.
  assert (H : Trimmed fresh_app) by constructor.
  split; [exact H|].
  exact (texts_stay_trimmed
           [Edit (Str.lit "  a b  ");
            KeyPress (Str.lit "Enter") 5 (Str.lit "10:30");
            Edit (Str.lit "   "); AddClick 6 (Str.lit "10:30")]
           fresh_app H).
Defined.

(* ================================================================= *)
(** ** Escaping *)

Lemma escapeHtml_app (s1 s2 : jsstring) :
  escapeHtml (s1 ++ s2) = escapeHtml s1 ++ escapeHtml s2.
Proof.
  induction s1 as [|c s1 IH]; [reflexivity|].
  cbn [app escapeHtml]. rewrite IH, app_assoc. reflexivity.
Qed.

Lemma escapeHtml_no_angle (s : jsstring) :
  ~ In 60 (escapeHtml s) /\ ~ In 62 (escapeHtml s).
Proof.
  induction s as [|c s [IH1 IH2]]; [split; intros []|].
  cbn [escapeHtml].
  destruct (N.eqb_spec c 38); [|destruct (N.eqb_spec c 60);
    [|destruct (N.eqb_spec c 62); [|destruct (N.eqb_spec c 160)]]];
    split; intros H; apply in_app_or in H; destruct H as [H|H];
    try (apply IH1; exact H); try (apply IH2; exact H);
    simpl in H; repeat (destruct H as [H|H]; [try discriminate; lia|]);
    exact H.
Qed.

Lemma escapeHtml_plain (s : jsstring) :
  Forall (fun c => c <> 38 /\ c <> 60 /\ c <> 62 /\ c <> 160) s ->
  escapeHtml s = s.
Proof.
  induction 1 as [|c s (H1 & H2 & H3 & H4) _ IH]; [reflexivity|].
  cbn [escapeHtml]. apply N.eqb_neq in H1, H2, H3, H4.
  rewrite H1, H2, H3, H4, IH. reflexivity.
Qed.

Lemma escapeHtml_inj (s1 s2 : jsstring) :
  escapeHtml s1 = escapeHtml s2 -> s1 = s2.
Proof.
  revert s2; induction s1 as [|c s1 IH]; intros [|d s2] H.
  - reflexivity.
  - exfalso. cbn [escapeHtml] in H.
    destruct (d =? 38); [|destruct (d =? 60);
      [|destruct (d =? 62); [|destruct (d =? 160)]]]; discriminate.
  - exfalso. cbn [escapeHtml] in H.
    destruct (c =? 38); [|destruct (c =? 60);
      [|destruct (c =? 62); [|destruct (c =? 160)]]]; discriminate.
  - cbn [escapeHtml] in H.
    destruct (N.eqb_spec c 38); [|destruct (N.eqb_spec c 60);
      [|destruct (N.eqb_spec c 62); [|destruct (N.eqb_spec c 160)]]];
    (destruct (N.eqb_spec d 38); [|destruct (N.eqb_spec d 60);
      [|destruct (N.eqb_spec d 62); [|destruct (N.eqb_spec d 160)]]]);
    subst; cbn [app Str.lit map list_ascii_of_string N_of_ascii] in H;
    try discriminate;
    try (injection H as H; f_equal; apply IH; exact H);
    try (injection H as Hc H; congruence).
    injection H as Hc H. subst. f_equal. apply IH; exact H.
Qed.

(** X13.  [escapeHtml] leaves no angle bracket in its result, changes
    nothing in a text without ampersand, angle bracket or no-break space,
    and maps different texts to different results; so no item [renderTasks]
    displays has an angle bracket in its text, and two displayed texts are
    equal only when the stored texts are. *)
Theorem escapeHtml_safe (s s' : jsstring) (a : TodoApp) :
  (~ In 60 (escapeHtml s) /\ ~ In 62 (escapeHtml s))
  /\ (Forall (fun c => c <> 38 /\ c <> 60 /\ c <> 62 /\ c <> 160) s ->
      escapeHtml s = s)
  /\ (escapeHtml s = escapeHtml s' -> s = s')
  /\ Forall (fun it => ~ In 60 (item_text it) /\ ~ In 62 (item_text it))
       (taskList_innerHTML (page (render a))).
Proof.
  repeat split; try apply escapeHtml_no_angle.
  - apply escapeHtml_plain.
  - apply escapeHtml_inj.
  - apply Forall_forall. intros it Hin. cbn in Hin.
    apply in_map_iff in Hin. destruct Hin as (t & <- & _).
    cbn. apply escapeHtml_no_angle.
Qed.

(* ================================================================= *)
(** ** The stored text *)

Lemma task_values_inj (ts ts' : list Task) :
  map task_value ts = map task_value ts' -> ts = ts'.
Proof.
  intros H. pose proof (as_tasks_values ts) as H1.
  rewrite H, as_tasks_values in H1. congruence.
Qed.

(** X14.  The stored text determines the task list: task lists that differ
    in length, in order or in any field of any task are written as
    different texts. *)
Theorem stringify_tasks_inj (a a' : TodoApp) :
  localStorage (saveToLocalStorage a) = localStorage (saveToLocalStorage a') ->
  tasks a = tasks a'.
Proof.
  cbn [saveToLocalStorage set_storage localStorage]. intros H.
  apply (f_equal (fun o => match o with
                           | Some s => Json.parse s
                           | None => None
                           end)) in H.
  cbv beta iota in H. rewrite !parse_stringify_tasks in H.
  injection H as H. apply task_values_inj, H.
Qed.

Lemma stringify_tasks_inj_witness :
  localStorage (saveToLocalStorage two_tasks)
  = localStorage (saveToLocalStorage (setFilter (Str.lit "active") two_tasks))
  /\ tasks two_tasks = tasks (setFilter (Str.lit "active") two_tasks).
Proof.
  split; [reflexivity|].
  exact (stringify_tasks_inj two_tasks
           (setFilter (Str.lit "active") two_tasks) eq_refl).
Defined.

(* ================================================================= *)
(** ** The welcome message *)

Lemma stringify_tasks_cons (ts : list Task) :
  exists s, stringify_tasks ts = 91 :: s.
Proof. eexists; reflexivity. Qed.

Lemma welcome_condition_saved (ts : list Task) :
  welcome_condition (Some (stringify_tasks ts))
  = Returned (Nat.eqb (length ts) 0).
Proof.
  destruct (stringify_tasks_cons ts) as [s Hs].
  unfold welcome_condition.
  rewrite Hs, <- Hs, parse_stringify_tasks.
  cbn [length_is_zero]. rewrite length_map. reflexivity.
Qed.

(** X15.  On the next load the welcome placeholder is offered exactly to an
    empty list: with the key absent the condition holds, and on a text the
    store has written it holds when the list has no task and fails when it
    has one; the placeholder is then written only into an empty input
    field. *)
Theorem welcome_after_save (a : TodoApp) (input_value : jsstring) :
  welcome_condition None = Returned true
  /\ welcome_condition (localStorage (saveToLocalStorage a))
     = Returned (Nat.eqb (stats_total a) 0)
  /\ (tasks a = [] ->
      welcome (localStorage (saveToLocalStorage a)) [] = Returned (Some welcome_placeholder))
  /\ (tasks a <> [] ->
      welcome (localStorage (saveToLocalStorage a)) input_value = Returned None)
  /\ (input_value <> [] ->
      welcome (localStorage (saveToLocalStorage a)) input_value = Returned None).
Proof.
  assert (H : welcome_condition (localStorage (saveToLocalStorage a))
              = Returned (Nat.eqb (stats_total a) 0))
    by apply welcome_condition_saved.
  repeat split.
  - exact H.
  - intros E. unfold welcome. rewrite H. unfold stats_total. rewrite E.
    reflexivity.
  - intros E. unfold welcome. rewrite H. unfold stats_total.
    destruct (tasks a); [congruence | reflexivity].
  - intros E. unfold welcome. rewrite H.
    destruct (Nat.eqb _ _); [|reflexivity].
    destruct input_value; [congruence | reflexivity].
Qed.


(* ================================================================= *)
(** ** Displayed items and stored tasks *)

Lemma update_first_changes (i : jsstring) (l : list Task) :
  In i (map id l) ->
  update_first (fun t => Str.eqb (id t) i) flip_completed l <> l.
Proof.
  induction l as [|t l IH]; simpl; [tauto|].
  intros Hin. destruct (Str.eqb (id t) i) eqn:E.
  - intros [= H]. destruct t as [i0 x c d]. unfold flip_completed in H.
    cbn in H. injection H as H. destruct c; discriminate.
  - apply str_eqb_neq in E. intros [= H]. apply IH; [tauto | exact H].
Qed.

Lemma filter_shorter {A : Type} (p : A -> bool) (l : list A) (x : A) :
  In x l -> p x = false -> (length (filter p l) < length l)%nat.
Proof.
  induction l as [|y l IH]; simpl; [tauto|].
  intros [->|Hin] Hp.
  - rewrite Hp. pose proof (filter_length_le p l). lia.
  - specialize (IH Hin Hp). destruct (p y); simpl; lia.
Qed.

Lemma getFilteredTasks_incl (a : TodoApp) (t : Task) :
  In t (getFilteredTasks a) -> In t (tasks a).
Proof.
  unfold getFilteredTasks.
  destruct (Str.eqb _ _); [intros H; apply filter_In in H; tauto|].
  destruct (Str.eqb _ _); [intros H; apply filter_In in H; tauto|].
  tauto.
Qed.

(** X17.  Every displayed item comes from a stored task.  On a rendered
    page the id interpolated for a displayed item is the id of a stored
    task, so [toggleTask] called with that id changes the task list and
    [deleteTask] called with it makes the list shorter.  (Whether a click
    on the item makes that call depends on how the browser reads the id
    back from the markup, into which it is written unescaped; that is not
    part of this statement.) *)
Theorem displayed_items_are_live (a : TodoApp) (it : Item) :
  Rendered a -> In it (taskList_innerHTML (page a)) ->
  In (item_id it) (ids a)
  /\ tasks (toggleTask (item_id it) a) <> tasks a
  /\ (stats_total (deleteTask (item_id it) a) < stats_total a)%nat.
Proof.
  intros H Hin. unfold Rendered in H.
  rewrite <- H in Hin. cbn in Hin.
  change (getFilteredTasks (updateStats a)) with (getFilteredTasks a) in Hin.
  apply in_map_iff in Hin. destruct Hin as (t & <- & Ht).
  apply getFilteredTasks_incl in Ht. cbn [item_id].
  assert (Hid : In (id t) (ids a)) by (apply in_map; exact Ht).
  repeat split.
  - exact Hid.
  - rewrite tasks_toggleTask. apply update_first_changes; exact Hid.
  - unfold stats_total. rewrite tasks_deleteTask.
    apply (filter_shorter _ _ t Ht).
    rewrite str_eqb_refl. reflexivity.
Qed.

Lemma displayed_items_are_live_witness :
  Rendered two_tasks
  /\ In (mkItem (Str.lit "8") true (Str.lit "b") (Str.lit "10:31"))
       (taskList_innerHTML (page two_tasks))
  /\ tasks (toggleTask (Str.lit "8") two_tasks) <> tasks two_tasks.
Proof.
  assert (H : Rendered two_tasks) by reflexivity.
  assert (Hin : In (mkItem (Str.lit "8") true (Str.lit "b") (Str.lit "10:31"))
                  (taskList_innerHTML (page two_tasks)))
    by (left; reflexivity).
  split; [exact H | split; [exact Hin|]].
  exact (proj1 (proj2 (displayed_items_are_live two_tasks _ H Hin))).
Defined.
